(** * Email pattern inference and verification engine of signalhire-email-enrichment

    Shallow embedding of the Python scripts under
    [Hirejoure.com/SouthDetroit/scripts]:
    - [email_pattern_filler.py]  (module [PatternFiller])
    - [robust_email_filler.py]   (module [RobustFiller])
    - [enhanced_email_filler.py] (module [EnhancedFiller])

    Strings are ASCII strings ([String.string]); the Python string methods
    used by the code ([lower], [strip], [split], [replace], ...) are written
    out on them.  External HTTP providers are modelled as oracles that map
    a request (and the number of requests already made) to an outcome;
    every provider call is recorded in an explicit log so that calls can be
    counted.  Python dicts used as caches are stdpp [gmap]s; a dict whose
    iteration order matters is an association list. *)

From Stdlib Require Import String Ascii List ZArith Lia Bool.
From stdpp Require Import base gmap strings.
Import ListNotations.
Open Scope string_scope.

(* ================================================================= *)
(** ** Python string primitives (ASCII) *)
(* ================================================================= *)

Module Py.

(** [str.isspace] on one ASCII character: \t \n \v \f \r, the
    separators \x1c-\x1f and the space. *)
Definition is_space (c : ascii) : bool :=
  let n := nat_of_ascii c in
  ((Nat.leb 9 n) && (Nat.leb n 13)) || ((Nat.leb 28 n) && (Nat.leb n 32)).

Definition is_upper (c : ascii) : bool :=
  let n := nat_of_ascii c in (Nat.leb 65 n) && (Nat.leb n 90).

Definition is_lower (c : ascii) : bool :=
  let n := nat_of_ascii c in (Nat.leb 97 n) && (Nat.leb n 122).

Definition is_alpha (c : ascii) : bool := is_upper c || is_lower c.

Definition is_digit (c : ascii) : bool :=
  let n := nat_of_ascii c in (Nat.leb 48 n) && (Nat.leb n 57).

(** [\w] of Python's [re] on ASCII: letters, digits and underscore. *)
Definition is_word (c : ascii) : bool :=
  is_alpha c || is_digit c || Ascii.eqb c "_"%char.

Definition lower_char (c : ascii) : ascii :=
  if is_upper c then ascii_of_nat (nat_of_ascii c + 32) else c.

(** [s.lower()] *)
Fixpoint lower (s : string) : string :=
  match s with
  | EmptyString => EmptyString
  | String c s' => String (lower_char c) (lower s')
  end.

(** [s.lstrip(chars)] for the character class [p]. *)
Fixpoint lstrip_by (p : ascii -> bool) (s : string) : string :=
  match s with
  | EmptyString => EmptyString
  | String c s' => if p c then lstrip_by p s' else s
  end.

Fixpoint rev_str (s : string) : string :=
  match s with
  | EmptyString => EmptyString
  | String c s' => rev_str s' ++ String c EmptyString
  end.

(** [s.rstrip(chars)] for the character class [p]. *)
Definition rstrip_by (p : ascii -> bool) (s : string) : string :=
  rev_str (lstrip_by p (rev_str s)).

Definition strip_by (p : ascii -> bool) (s : string) : string :=
  rstrip_by p (lstrip_by p s).

(** [s.strip()] *)
Definition strip (s : string) : string := strip_by is_space s.

Definition char_in (cs : string) (c : ascii) : bool :=
  existsb (Ascii.eqb c) (list_ascii_of_string cs).

(** [c in s] for a single character [c]. *)
Definition contains (c : ascii) (s : string) : bool :=
  char_in s c.

(** [s.count(c)] for a single character [c]. *)
Fixpoint count (c : ascii) (s : string) : nat :=
  match s with
  | EmptyString => 0
  | String d s' => (if Ascii.eqb c d then 1 else 0) + count c s'
  end.

(** [s.replace(c, "")] for a single character [c]. *)
Fixpoint remove_char (c : ascii) (s : string) : string :=
  match s with
  | EmptyString => EmptyString
  | String d s' => if Ascii.eqb c d then remove_char c s'
                   else String d (remove_char c s')
  end.

(** [s.split(sep)[0]] for a single character [sep]. *)
Fixpoint split_first (sep : ascii) (s : string) : string :=
  match s with
  | EmptyString => EmptyString
  | String c s' => if Ascii.eqb c sep then EmptyString
                   else String c (split_first sep s')
  end.

(** [s.split()] : maximal runs of non-whitespace characters. *)
Fixpoint split_ws_aux (cur : string) (s : string) : list string :=
  match s with
  | EmptyString => if String.eqb cur "" then [] else [rev_str cur]
  | String c s' =>
      if is_space c then
        (if String.eqb cur "" then [] else [rev_str cur]) ++ split_ws_aux "" s'
      else split_ws_aux (String c cur) s'
  end.

Definition split_ws (s : string) : list string := split_ws_aux "" s.

(** [sep.join(words)] *)
Fixpoint join (sep : string) (ws : list string) : string :=
  match ws with
  | [] => ""
  | [w] => w
  | w :: ws' => w ++ sep ++ join sep ws'
  end.

(** [re.sub(r'\s+', ' ', s)] *)
Fixpoint collapse_ws_aux (in_run : bool) (s : string) : string :=
  match s with
  | EmptyString => EmptyString
  | String c s' =>
      if is_space c then
        (if in_run then collapse_ws_aux true s'
         else String " " (collapse_ws_aux true s'))
      else String c (collapse_ws_aux false s')
  end.

Definition collapse_ws (s : string) : string := collapse_ws_aux false s.

(** [k in s] for strings: [k] is a substring of [s]. *)
Fixpoint substr_in (k s : string) : bool :=
  String.prefix k s ||
  match s with
  | EmptyString => false
  | String _ s' => substr_in k s'
  end.

(** [s.startswith(p)] *)
Definition startswith (p s : string) : bool := String.prefix p s.

(** [s.endswith(p)] *)
Definition endswith (p s : string) : bool :=
  String.prefix (rev_str p) (rev_str s).

(** [s.partition(c)] for a single character [c]. *)
Fixpoint partition_aux (c : ascii) (s : string) : option (string * string) :=
  match s with
  | EmptyString => None
  | String d s' =>
      if Ascii.eqb d c then Some (EmptyString, s')
      else match partition_aux c s' with
           | Some (a, b) => Some (String d a, b)
           | None => None
           end
  end.

Definition partition (c : ascii) (s : string) : string * string * string :=
  match partition_aux c s with
  | Some (a, b) => (a, String c EmptyString, b)
  | None => (s, EmptyString, EmptyString)
  end.

(** [d[k] = d.get(k, 0) + n] on a dict of counts, kept as an association
    list in insertion order. *)
Fixpoint dict_add (k : string) (n : nat) (d : list (string * nat)) : list (string * nat) :=
  match d with
  | [] => [(k, n)]
  | (k', m) :: d' => if String.eqb k k' then (k', m + n) :: d'
                     else (k', m) :: dict_add k n d'
  end.

(** [max(d.items(), key=value)]: the first item of greatest value; a later
    item replaces the current one only when it is strictly greater. *)
Fixpoint max_first (best : string * nat) (l : list (string * nat)) : string * nat :=
  match l with
  | [] => best
  | x :: l' => if Nat.ltb (snd best) (snd x) then max_first x l' else max_first best l'
  end.

End Py.

(* ================================================================= *)
(** ** Effects: caches, provider calls and Python exceptions *)
(* ================================================================= *)

Module Effects.

(** The exceptions the [try] blocks distinguish: [requests]' timeout, and
    any other exception (connection errors, [ValueError] from
    [resp.json()], [AttributeError] on a non-string or non-dict value). *)
Inductive exn := ETimeout | EOther.

Inductive exc (A : Type) := Ok (a : A) | Raise (e : exn).
Arguments Ok {A} a.
Arguments Raise {A} e.

(** The module-level state the scripts mutate: the pattern cache
    ([_pattern_cache] / [_email_pattern_cache]), the verification cache
    ([_verify_cache] / [_verification_cache]), the logs of the calls made
    to the verification and pattern lookup providers, in order, and the
    candidates printed as tested. *)
Record state := mkState {
  pattern_cache : gmap string string;
  verify_cache : gmap string bool;
  nb_log : list string;
  lookup_log : list string;
  tested_log : list (string * string)
}.

Definition set_pattern_cache (pc : gmap string string) (st : state) : state :=
  mkState pc (verify_cache st) (nb_log st) (lookup_log st) (tested_log st).
Definition set_verify_cache (vc : gmap string bool) (st : state) : state :=
  mkState (pattern_cache st) vc (nb_log st) (lookup_log st) (tested_log st).
Definition log_nb (email : string) (st : state) : state :=
  mkState (pattern_cache st) (verify_cache st) (app (nb_log st) [email])
    (lookup_log st) (tested_log st).
Definition log_lookup (domain : string) (st : state) : state :=
  mkState (pattern_cache st) (verify_cache st) (nb_log st)
    (app (lookup_log st) [domain]) (tested_log st).
(** The [Testing: <email> (pattern: <p>, name: <v>)] line printed for each
    candidate [test_multiple_email_patterns] tries. *)
Definition log_tested (p v : string) (st : state) : state :=
  mkState (pattern_cache st) (verify_cache st) (nb_log st) (lookup_log st)
    (app (tested_log st) [(p, v)]).

Definition empty_state : state := mkState ∅ ∅ [] [] [].

(** State and exception monad: a raised exception keeps the state changes
    made before it, as in Python. *)
Definition M (A : Type) : Type := state -> exc A * state.

#[global] Instance M_ret : MRet M := fun A a st => (Ok a, st).
#[global] Instance M_bind : MBind M := fun A B f m st =>
  match m st with
  | (Ok a, st') => f a st'
  | (Raise e, st') => (Raise e, st')
  end.

Definition raise {A} (e : exn) : M A := fun st => (Raise e, st).

(** [try: m except ...: h] *)
Definition try_with {A} (m : M A) (h : exn -> M A) : M A := fun st =>
  match m st with
  | (Raise e, st') => h e st'
  | r => r
  end.

Definition gets {A} (f : state -> A) : M A := fun st => (Ok (f st), st).
Definition modify (f : state -> state) : M unit := fun st => (Ok tt, f st).

Definition verify_cache_get (email : string) : M (option bool) :=
  gets (fun st => verify_cache st !! email).
Definition verify_cache_put (email : string) (b : bool) : M unit :=
  modify (fun st => set_verify_cache (<[email := b]> (verify_cache st)) st).
Definition pattern_cache_get (k : string) : M (option string) :=
  gets (fun st => pattern_cache st !! k).
Definition pattern_cache_put (k p : string) : M unit :=
  modify (fun st => set_pattern_cache (<[k := p]> (pattern_cache st)) st).

(** *** The mailbox verification provider (NeverBounce single check) *)

(** The [result] member of the response object. *)
Inductive json_field := JMissing | JStr (s : string) | JNonStr.

(** What [resp.json()] finds in the body. *)
Inductive json_body := JMalformed | JNonObject | JObject (result : json_field).

(** The outcome of one [requests.get]. *)
Inductive nb_outcome :=
  | NBTimeout
  | NBError
  | NBResponse (status : Z) (body : json_body).

(** The provider: its answer to the [n]-th call of the run for [email]. *)
Definition nb_oracle := string -> nat -> nb_outcome.

(** [requests.get(NB_ENDPOINT, params={..., "email": email}, ...)] *)
Definition nb_get (o : nb_oracle) (email : string) : M (Z * json_body) :=
  fun st =>
    let st' := log_nb email st in
    match o email (length (nb_log st)) with
    | NBTimeout => (Raise ETimeout, st')
    | NBError => (Raise EOther, st')
    | NBResponse c b => (Ok (c, b), st')
    end.

(** [resp.json().get("result", default)]: a Python value, [None] for
    any non-string value. *)
Definition json_get_result (default : option string) (b : json_body)
  : M (option string) :=
  match b with
  | JMalformed => raise EOther
  | JNonObject => raise EOther
  | JObject JMissing => mret default
  | JObject (JStr s) => mret (Some s)
  | JObject JNonStr => mret None
  end.

(** [v.lower()] on a Python value: [AttributeError] unless a string. *)
Definition py_lower (v : option string) : M string :=
  match v with
  | Some s => mret (Py.lower s)
  | None => raise EOther
  end.

(** *** Web search pages *)

(** The outcome of one [requests.get] of a search results page. *)
Inductive page_outcome :=
  | PTimeout
  | PError
  | PResponse (status : Z) (text : string).

(** The search engine: the page it answers for a query. *)
Definition page_oracle := string -> page_outcome.

(** The double quote character. *)
Definition dq : string := String "034" EmptyString.

End Effects.

(* ================================================================= *)
(** ** The pattern lookup provider (Hunter.io domain search) *)
(* ================================================================= *)

Module Hunter.
Import Effects.

(** The [pattern] member of the [data] object. *)
Inductive hunter_pattern := HPMissing | HPNull | HPStr (s : string).

(** The [data] member of the response. *)
Inductive hunter_data :=
  | HDMissing
  | HDNonObject
  | HDObject (pattern : hunter_pattern) (confidence : option Z).

Inductive hunter_body := HMalformed | HNonObject | HObject (data : hunter_data).

Inductive hunter_outcome :=
  | HTimeout
  | HError
  | HResponse (status : Z) (body : hunter_body).

(** The provider's answer to a domain search for a domain. *)
Definition hunter_oracle := string -> hunter_outcome.

End Hunter.

(* ================================================================= *)
(** ** [robust_email_filler.py] *)
(* ================================================================= *)

Module RobustFiller.
Import Py Effects Hunter.

(** *** [clean_name] *)

(** [re.sub(r'\b(alt1|alt2|...)\b\.?' + ('\s*' if eat_ws), '', s,
    flags=re.IGNORECASE)]: at a word boundary, the first alternative
    followed by a word boundary is removed, with an optional dot (and the
    following whitespace); the scan resumes after the match. [prev] is the
    character before the scan position. *)
Fixpoint sub_words_aux (fuel : nat) (alts : list string) (eat_ws : bool)
    (prev : option ascii) (s : string) : string :=
  match fuel with
  | O => s
  | S fuel' =>
      match s with
      | EmptyString => EmptyString
      | String c s' =>
          let boundary_before :=
            match prev with Some p => negb (is_word p) | None => true end in
          let hit :=
            find (fun a =>
                    String.prefix a (lower s) &&
                    match String.get (String.length a) s with
                    | Some d => negb (is_word d)
                    | None => true
                    end) alts in
          match (if boundary_before then hit else None) with
          | Some a =>
              let rest := substring (String.length a) (String.length s) s in
              let last := String.get (String.length a - 1) s in
              let '(last, rest) :=
                match rest with
                | String "." r => (Some "."%char, r)
                | _ => (last, rest)
                end in
              let ws := if eat_ws then String.length rest - String.length (lstrip_by is_space rest) else 0 in
              let last := if Nat.eqb ws 0 then last else String.get (ws - 1) rest in
              let rest := if eat_ws then lstrip_by is_space rest else rest in
              sub_words_aux fuel' alts eat_ws last rest
          | None => String c (sub_words_aux fuel' alts eat_ws (Some c) s')
          end
      end
  end.

Definition sub_words (alts : list string) (eat_ws : bool) (s : string) : string :=
  sub_words_aux (S (String.length s)) alts eat_ws None s.

Definition suffix_words : list string :=
  ["jr"; "sr"; "ii"; "iii"; "iv"; "phd"; "md"; "mba"; "cpa"].
Definition prefix_words : list string := ["mr"; "mrs"; "ms"; "dr"; "prof"].

(** [re.sub(r'[^\w\s\-\']', '', s)] *)
Fixpoint keep_name_chars (s : string) : string :=
  match s with
  | EmptyString => EmptyString
  | String c s' =>
      if is_word c || is_space c || Ascii.eqb c "-" || Ascii.eqb c "'"
      then String c (keep_name_chars s') else keep_name_chars s'
  end.

Definition clean_name (name : string) : string :=
  let name := strip name in
  if String.eqb name "" then "" else
  let name := sub_words suffix_words false name in
  let name := sub_words prefix_words true name in
  let name := keep_name_chars name in
  strip (collapse_ws name).

(** *** Industry hints *)

Definition get_industry_from_company (company_name : string) : string :=
  let company_lower := lower company_name in
  let any_kw := existsb (fun k => substr_in k company_lower) in
  if any_kw ["medical"; "health"; "pharma"; "bio"; "surgical"; "dental"; "device"; "diagnostic"]
  then "medical"
  else if any_kw ["tech"; "software"; "digital"; "systems"; "solutions"; "data"]
  then "technology"
  else if any_kw ["consulting"; "advisory"; "partners"; "group"]
  then "consulting"
  else if any_kw ["manufacturing"; "industrial"; "corp"; "inc"; "company"]
  then "manufacturing"
  else "general".

(** [INDUSTRY_PATTERN_HINTS], in dict order. *)
Definition INDUSTRY_PATTERN_HINTS : list (string * list string) :=
  [("medical", ["first.last"; "f.last"; "firstlast"]);
   ("technology", ["first.last"; "firstlast"; "f.last"]);
   ("consulting", ["first.last"; "f.last"]);
   ("manufacturing", ["first.last"; "firstlast"]);
   ("pharmaceutical", ["first.last"; "f.last"])].

Fixpoint assoc {A} (k : string) (l : list (string * A)) : option A :=
  match l with
  | [] => None
  | (k', v) :: l' => if String.eqb k k' then Some v else assoc k l'
  end.

Definition KNOWN_PATTERNS : list (string * string) :=
  [("bureauveritas.com", "first.last"); ("us.bureauveritas.com", "first.last");
   ("ul.com", "first.last"); ("dnvgl.com", "first.last");
   ("tuvsud.com", "first.last"); ("mistrasgroup.com", "first.last");
   ("medtronic.com", "first.last"); ("abbottlabs.com", "first.last");
   ("jnj.com", "f.last"); ("ge.com", "firstlast"); ("siemens.com", "first.last");
   ("philips.com", "first.last"); ("gmail.com", "firstlast");
   ("outlook.com", "firstlast"); ("yahoo.com", "firstlast");
   ("stryker.com", "first.last"); ("zimmer.com", "first.last");
   ("boston-scientific.com", "first.last"); ("edwards.com", "first.last")].

(** *** [PATTERN_FUNCS] *)

(** [s[0]]: [None] models the [IndexError] of an empty string. *)
Definition head_char (s : string) : option string :=
  match s with
  | EmptyString => None
  | String c _ => Some (String c EmptyString)
  end.

(** [PATTERN_FUNCS[p](f, l)]: [None] when [p] is not a key, [Some None]
    when the template raises [IndexError]. *)
Definition PATTERN_FUNCS (p : string) : option (string -> string -> option string) :=
  if String.eqb p "first.last" then Some (fun f l => Some (lower f ++ "." ++ lower l))
  else if String.eqb p "firstlast" then Some (fun f l => Some (lower f ++ lower l))
  else if String.eqb p "first_last" then Some (fun f l => Some (lower f ++ "_" ++ lower l))
  else if String.eqb p "f.last" then
    Some (fun f l => match head_char f with Some i => Some (lower i ++ "." ++ lower l) | None => None end)
  else if String.eqb p "firstl" then
    Some (fun f l => match head_char l with Some i => Some (lower f ++ lower i) | None => None end)
  else if String.eqb p "first" then Some (fun f l => Some (lower f))
  else if String.eqb p "last.first" then Some (fun f l => Some (lower l ++ "." ++ lower f))
  else if String.eqb p "l.first" then
    Some (fun f l => match head_char l with Some i => Some (lower i ++ "." ++ lower f) | None => None end)
  else None.

(** *** [verify_email_with_retry] *)

(** What one iteration of the [for attempt in range(max_retries)] loop
    ends with. *)
Inductive loop_step := Returned (b : bool) | Continue | Break.

Definition verify_attempt (o : nb_oracle) (email : string) : M loop_step :=
  try_with
    (resp ← nb_get o email;
     let '(status, body) := resp in
     if Z.eqb status 200 then
       result ← json_get_result (Some "") body;
       r ← py_lower result;
       let is_valid := bool_decide (r = "valid") || bool_decide (r = "catchall") in
       verify_cache_put email is_valid;;
       mret (Returned is_valid)
     else mret Continue)
    (fun e => match e with
              | ETimeout => mret Continue
              | EOther => mret Break
              end).

Fixpoint retry_loop (o : nb_oracle) (email : string) (attempts : nat) : M (option bool) :=
  match attempts with
  | O => mret None
  | S n =>
      step ← verify_attempt o email;
      match step with
      | Returned b => mret (Some b)
      | Continue => retry_loop o email n
      | Break => mret None
      end
  end.

(** [NB_API_KEY] is a parameter: the script sets a non-empty constant. *)
Definition verify_email_with_retry (o : nb_oracle) (nb_api_key : string)
    (max_retries : nat) (email : string) : M bool :=
  if String.eqb email "" || String.eqb nb_api_key "" then mret false else
  cached ← verify_cache_get email;
  match cached with
  | Some b => mret b
  | None =>
      r ← retry_loop o email max_retries;
      match r with
      | Some b => mret b
      | None => verify_cache_put email false;; mret false
      end
  end.

(** *** [get_verified_email_pattern] *)

Definition hunter_to_pattern (p : string) : string :=
  match assoc p
    [("{first}.{last}", "first.last"); ("{first}{last}", "firstlast");
     ("{first}_{last}", "first_last"); ("{f}.{last}", "f.last");
     ("{first}{l}", "firstl"); ("{first}", "first");
     ("{last}.{first}", "last.first"); ("{l}.{first}", "l.first")] with
  | Some q => q
  | None => "first.last"
  end.

(** The [try] block of the Hunter.io request: [Some p] when it returns a
    pattern, [None] when it falls through (including a caught exception).
    The request is logged. *)
Definition hunter_lookup (h : hunter_oracle) (domain : string) : M (option string) :=
  try_with
    (modify (log_lookup domain);;
     match h domain with
     | HTimeout => raise ETimeout
     | HError => raise EOther
     | HResponse status body =>
         if Z.eqb status 200 then
           match body with
           | HMalformed => raise EOther
           | HNonObject => raise EOther
           | HObject HDNonObject => raise EOther
           | HObject HDMissing => mret None
           | HObject (HDObject pat _) =>
               match pat with
               | HPStr p => if String.eqb p "" then mret None
                            else mret (Some (hunter_to_pattern p))
               | _ => mret None
               end
           end
         else mret None
     end)
    (fun _ => mret None).

(** [search_google_enhanced(company_name, domain)]: a pattern or [None];
    the function catches its own exceptions. *)
Definition google_oracle := string -> string -> option string.

Definition get_verified_email_pattern (h : hunter_oracle) (g : google_oracle)
    (hunter_api_key : string) (company_name domain : string) : M string :=
  let domain := strip (lower domain) in
  cached ← pattern_cache_get domain;
  match cached with
  | Some p => mret p
  | None =>
  match assoc domain KNOWN_PATTERNS with
  | Some p => pattern_cache_put domain p;; mret p
  | None =>
  hp ← (if String.eqb hunter_api_key "" then mret None
        else hunter_lookup h domain);
  match hp with
  | Some p => pattern_cache_put domain p;; mret p
  | None =>
  match g company_name domain with
  | Some p => pattern_cache_put domain p;; mret p
  | None =>
  match assoc (get_industry_from_company company_name) INDUSTRY_PATTERN_HINTS with
  | Some (p :: _) => pattern_cache_put domain p;; mret p
  | _ => pattern_cache_put domain "first.last";; mret "first.last"
  end end end end end.

(** *** [search_google_enhanced] *)

Definition search_queries (company_name domain : string) : list string :=
  [dq ++ domain ++ dq ++ " email format " ++ dq ++ "firstname.lastname" ++ dq;
   dq ++ domain ++ dq ++ " contact " ++ dq ++ "@" ++ domain ++ dq ++ " email";
   "site:" ++ domain ++ " contact email " ++ dq ++ "john.doe" ++ dq;
   dq ++ company_name ++ dq ++ " employee email format";
   dq ++ domain ++ dq ++ " email pattern employees directory"].

(** [pattern_indicators], in dict order. *)
Definition pattern_indicators (domain : string) : list (string * list string) :=
  [("first.last", ["firstname.lastname"; "first.last"; "john.doe"; "jane.smith";
                   "name.surname"; "givenname.familyname"; "first name.last name";
                   "@" ++ domain ++ dq ++ ">" ++ "[a-z]+\.[a-z]+@"]);
   ("f.last", ["j.doe"; "first initial"; "f.lastname"; "initial.surname";
               "firstletter.last"; "[a-z]\.[a-z]+@" ++ domain]);
   ("firstlast", ["johndoe@"; "firstlast@"; "no dot"; "no period"; "together@";
                  "concatenated@"; "[a-z]+[a-z]+@" ++ domain]);
   ("first_last", ["first_last"; "firstname_lastname"; "john_doe"; "underscore";
                   "[a-z]+_[a-z]+@" ++ domain]);
   ("firstl", ["johns@"; "firstl@"; "first letter last"; "abbreviated";
               "[a-z]+[a-z]@" ++ domain])].

(** [re.search(pattern, text)]: [Some b] for its truth value, [None] when
    it raises [re.error] on an invalid pattern. *)
Definition re_searcher := string -> string -> option bool.

(** What one indicator adds to the score; [None] is an exception. *)
Definition indicator_score (re_search : re_searcher) (content indicator : string) : option nat :=
  if startswith "[" indicator && endswith "]" indicator then
    match re_search indicator content with
    | Some true => Some 3
    | Some false => Some 0
    | None => None
    end
  else Some (if substr_in indicator content then 1 else 0).

Fixpoint pattern_score (re_search : re_searcher) (content : string)
    (indicators : list string) : option nat :=
  match indicators with
  | [] => Some 0
  | i :: is =>
      match indicator_score re_search content i with
      | Some n => option_map (Nat.add n) (pattern_score re_search content is)
      | None => None
      end
  end.

(** The scoring loop over one page: an exception leaves the query, the
    patterns scored before it keep their scores. *)
Fixpoint score_page (re_search : re_searcher) (content : string)
    (pis : list (string * list string)) (scores : list (string * nat))
  : list (string * nat) :=
  match pis with
  | [] => scores
  | (pattern, indicators) :: pis' =>
      match pattern_score re_search content indicators with
      | None => scores
      | Some score =>
          score_page re_search content pis'
            (if Nat.ltb 0 score then dict_add pattern score scores else scores)
      end
  end.

Fixpoint search_loop (re_search : re_searcher) (g : page_oracle) (domain : string)
    (queries : list string) (scores : list (string * nat)) : list (string * nat) :=
  match queries with
  | [] => scores
  | q :: qs =>
      let scores :=
        match g q with
        | PResponse status text =>
            if Z.eqb status 200
            then score_page re_search (lower text) (pattern_indicators domain) scores
            else scores
        | _ => scores
        end in
      search_loop re_search g domain qs scores
  end.

Definition search_google_enhanced (re_search : re_searcher) (g : page_oracle)
    (company_name domain : string) : option string :=
  match search_loop re_search g domain (search_queries company_name domain) [] with
  | [] => None
  | x :: l => Some (fst (max_first x l))
  end.

(** *** [generate_email_with_pattern] *)

Definition generate_email_with_pattern (first_name last_name domain pattern : string)
  : option string :=
  let first := clean_name first_name in
  let last := clean_name last_name in
  if String.eqb first "" || String.eqb domain "" then None else
  let '(pattern, last) :=
    if String.eqb last "" || Nat.leb (String.length last) 1 then
      if existsb (String.eqb pattern) ["firstl"; "f.last"; "last.first"; "l.first"]
      then ("first", last)
      else if String.eqb pattern "first.last" then (pattern, "user")
      else (pattern, last)
    else (pattern, last) in
  match PATTERN_FUNCS pattern with
  | Some f =>
      match f first last with
      | Some local_part => Some (local_part ++ "@" ++ domain)
      | None => None
      end
  | None => None
  end.

(** *** [generate_and_verify_email_robust] *)

(** [if x not in l: l.append(x)] for each [x] of [xs]. *)
Definition append_new (l xs : list string) : list string :=
  fold_left (fun acc x => if existsb (String.eqb x) acc then acc else app acc [x]) xs l.

Definition common_patterns : list string :=
  ["first.last"; "f.last"; "firstlast"; "first_last"; "firstl"; "first"].

Definition patterns_to_try (detected company_name : string) : list string :=
  let hints := match assoc (get_industry_from_company company_name) INDUSTRY_PATTERN_HINTS with
               | Some l => l | None => [] end in
  append_new (append_new [detected] hints) common_patterns.

(** The loop over [patterns_to_try]; [best] is the first generated,
    unverified email and its pattern. *)
Fixpoint try_patterns (o : nb_oracle) (nb_api_key : string)
    (first_name last_name domain : string) (ps : list string)
    (best : option (string * string)) (detected : string)
  : M (option string * bool * string) :=
  match ps with
  | [] =>
      match best with
      | Some (e, p) => mret (Some e, false, p)
      | None => mret (None, false, detected)
      end
  | p :: ps' =>
      match generate_email_with_pattern first_name last_name domain p with
      | None => try_patterns o nb_api_key first_name last_name domain ps' best detected
      | Some email =>
          ok ← verify_email_with_retry o nb_api_key 3 email;
          if (ok : bool) then (pattern_cache_put domain p;; mret (Some email, true, p))
          else
            let best' := match best with None => Some (email, p) | Some b => Some b end in
            try_patterns o nb_api_key first_name last_name domain ps' best' detected
      end
  end.

Definition generate_and_verify_email_robust (h : hunter_oracle) (g : google_oracle)
    (o : nb_oracle) (hunter_api_key nb_api_key : string)
    (first_name last_name company_name domain : string)
  : M (option string * bool * string) :=
  detected ← get_verified_email_pattern h g hunter_api_key company_name domain;
  try_patterns o nb_api_key first_name last_name domain
    (patterns_to_try detected company_name) None detected.

End RobustFiller.

(* ================================================================= *)
(** ** [email_pattern_filler.py] *)
(* ================================================================= *)

Module PatternFiller.
Import Py Effects Hunter.

Fixpoint assoc {A} (k : string) (l : list (string * A)) : option A :=
  match l with
  | [] => None
  | (k', v) :: l' => if String.eqb k k' then Some v else assoc k l'
  end.

(** *** Name normalisation: the nested [clean_name] of [fill_emails] *)

(** [re.sub(r"\([^)]*\)", "", s)], as the left-to-right scan of the
    regex engine: an opening parenthesis starts a match that ends at the
    next closing one; an unclosed one is kept verbatim. *)
Fixpoint drop_parens_aux (inside : option string) (s : string) : string :=
  match s with
  | EmptyString =>
      match inside with
      | None => EmptyString
      | Some buf => String "(" (rev_str buf)
      end
  | String c s' =>
      match inside with
      | None =>
          if Ascii.eqb c "(" then drop_parens_aux (Some "") s'
          else String c (drop_parens_aux None s')
      | Some buf =>
          if Ascii.eqb c ")" then drop_parens_aux None s'
          else drop_parens_aux (Some (String c buf)) s'
      end
  end.

Definition drop_parens (s : string) : string := drop_parens_aux None s.

(** [re.sub(q + "([^" + q + "]+)" + q, r"\1", s)] for the quote
    character [q]: a quoted non-empty run is replaced by its content.  Two
    adjacent quotes cannot start a match, so the regex engine retries at
    the second one. *)
Fixpoint unquote_aux (q : ascii) (inside : option string) (s : string)
  : string :=
  match s with
  | EmptyString =>
      match inside with
      | None => EmptyString
      | Some buf => String q (rev_str buf)
      end
  | String c s' =>
      match inside with
      | None =>
          if Ascii.eqb c q then unquote_aux q (Some "") s'
          else String c (unquote_aux q None s')
      | Some buf =>
          if Ascii.eqb c q then
            (if String.eqb buf "" then String q (unquote_aux q (Some "") s')
             else rev_str buf ++ unquote_aux q None s')
          else unquote_aux q (Some (String c buf)) s'
      end
  end.

Definition unquote (q : ascii) (s : string) : string := unquote_aux q None s.

(** The double-quote character. *)
Definition dquote : ascii := ascii_of_nat 34.

Definition honorifics : list string :=
  ["mr"; "ms"; "mrs"; "dr"; "prof"; "miss"; "sir"; "madam"; "lady"; "lord"].

Definition is_dot (c : ascii) : bool := Ascii.eqb c ".".

(** Step 5: drop a leading honorific word. *)
Definition drop_honorific (name : string) : string :=
  match split_ws name with
  | w :: ws =>
      if existsb (String.eqb (rstrip_by is_dot (lower w))) honorifics
      then join " " ws else name
  | [] => name
  end.

(** Step 6: [len(word.rstrip('.')) == 1 and word.rstrip('.').isalpha()]. *)
Definition is_initial (w : string) : bool :=
  match rstrip_by is_dot w with
  | String c EmptyString => is_alpha c
  | _ => false
  end.

Definition drop_initials (name : string) : string :=
  join " " (filter (fun w => negb (is_initial w)) (split_ws name)).

(** The class [[a-zA-Z\s\'\-]] of step 7. *)
Definition name_char (c : ascii) : bool :=
  is_alpha c || is_space c || Ascii.eqb c "'" || Ascii.eqb c "-".

Definition clean_name (raw : string) : string :=
  let original := strip raw in
  if String.eqb original "" then "" else
  let name := strip (collapse_ws original) in
  let name := if contains "," name then strip (split_first "," name) else name in
  let name := if contains ";" name then strip (split_first ";" name) else name in
  let name := if contains "|" name then strip (split_first "|" name) else name in
  let name := strip (drop_parens name) in
  let name := unquote dquote name in
  let name := unquote "'" name in
  let name := strip (remove_char "'" (remove_char dquote name)) in
  let name := drop_honorific name in
  let name := drop_initials name in
  let name := lstrip_by (fun c => negb (name_char c)) name in
  let name := rstrip_by (fun c => negb (name_char c)) name in
  let name := strip (collapse_ws name) in
  if String.eqb name "" then "" else
  lower (remove_char "-" (remove_char "'" name)).

(** *** Domain resolution: the nested [clean_domain] of [infer_domains] *)

(** [re.sub(r"https?://", "", s, flags=re.I)] (applied after [lower()]):
    every occurrence is removed, scanning left to right. *)
Fixpoint drop_schemes_aux (fuel : nat) (s : string) : string :=
  match fuel with
  | O => s
  | S fuel' =>
      if startswith "https://" s then drop_schemes_aux fuel' (substring 8 (String.length s) s)
      else if startswith "http://" s then drop_schemes_aux fuel' (substring 7 (String.length s) s)
      else match s with
           | EmptyString => EmptyString
           | String c s' => String c (drop_schemes_aux fuel' s')
           end
  end.

Definition drop_schemes (s : string) : string :=
  drop_schemes_aux (S (String.length s)) s.

(** [re.sub(r"^www\.\s*", "", s, flags=re.I)] *)
Definition drop_www (s : string) : string :=
  if startswith "www." (lower s) then lstrip_by is_space (substring 4 (String.length s) s)
  else s.

Definition domain_label_char (c : ascii) : bool :=
  is_lower c || is_digit c || Ascii.eqb c "." || Ascii.eqb c "-".

(** [re.match(r"^[a-z0-9.-]+\.[a-z]{2,}$", s)].  The top-level domain
    has no dot, so it is the part after the last dot; [$] also matches
    before a final newline. *)
Definition domain_re_match (s : string) : bool :=
  let t := if endswith (String "010" EmptyString) s
           then substring 0 (String.length s - 1) s else s in
  let tld := rev_str (split_first "." (rev_str t)) in
  let host_len := String.length t - String.length tld - 1 in
  let host := substring 0 host_len t in
  contains "." t
  && Nat.leb 2 (String.length tld)
  && forallb is_lower (list_ascii_of_string tld)
  && Nat.leb 1 host_len
  && forallb domain_label_char (list_ascii_of_string host).

(** The value [clean_domain] validates, after all its rewriting steps. *)
Definition domain_candidate (v : string) : string :=
  let v := lower (strip v) in
  let v := drop_schemes v in
  let v := drop_www v in
  let v := strip (split_first "/" v) in
  let v := strip_by (char_in ". ") v in
  remove_char " " v.

Definition clean_domain (v : string) : string :=
  let val := domain_candidate v in
  if Nat.ltb 40 (String.length val) || Nat.ltb 3 (count "." val)
     || negb (domain_re_match val)
  then "" else val.

(** *** Verification: [verify_email_nvb] *)

(** [NB_API_KEY] is a parameter: the script sets a non-empty constant. *)
Definition verify_email_nvb (o : nb_oracle) (nb_api_key email : string) : M bool :=
  if String.eqb nb_api_key "" then mret true else
  cached ← verify_cache_get email;
  match cached with
  | Some b => mret b
  | None =>
      try_with
        (resp ← nb_get o email;
         result ← json_get_result None (snd resp);
         let valid := bool_decide (result = Some "valid") in
         verify_cache_put email valid;;
         mret valid)
        (fun _ => mret false)
  end.

(** [scrape_company_website(domain)] catches its own exceptions and returns
    a pattern or [None]. *)
Definition website_oracle := string -> option string.

(** *** [get_verified_email_pattern] (line 921)

    The module defines [get_verified_email_pattern] twice; this later
    definition replaces the first one (line 218) in the module namespace, so
    it is the one [fill_emails] calls.  Its cache [_pattern_cache] maps
    [f"{domain}_{company_name}"] to the whole result dict. *)

Record pattern_result := mkPatternResult {
  primary_domain : string;
  primary_pattern : string;
  regional_domains : list (string * string);
  recommended_domain : string;
  recommended_pattern : string
}.

Definition with_primary_pattern (p : string) (r : pattern_result) : pattern_result :=
  mkPatternResult (primary_domain r) p (regional_domains r) (recommended_domain r)
    (recommended_pattern r).
Definition with_recommended_pattern (p : string) (r : pattern_result) : pattern_result :=
  mkPatternResult (primary_domain r) (primary_pattern r) (regional_domains r)
    (recommended_domain r) p.
Definition with_regional (m : list (string * string)) (r : pattern_result) : pattern_result :=
  mkPatternResult (primary_domain r) (primary_pattern r) m (recommended_domain r)
    (recommended_pattern r).
Definition with_recommended (d p : string) (r : pattern_result) : pattern_result :=
  mkPatternResult (primary_domain r) (primary_pattern r) (regional_domains r) d p.

(** [query_hunter_io(domain)]; the API key comes from the environment. *)
Definition query_hunter_io (h : hunter_oracle) (hunter_api_key domain : string)
  : option string :=
  if String.eqb hunter_api_key "" then None else
  match h domain with
  | HResponse status (HObject (HDObject (HPStr p) _)) =>
      if Z.eqb status 200 && negb (String.eqb p "") then
        Some (if String.eqb p "{first}.{last}" then "first.last"
              else if String.eqb p "{first}{last}" then "firstlast"
              else if String.eqb p "{f}{last}" then "flast"
              else if String.eqb p "{first}{l}" then "firstl"
              else if String.eqb p "{first}_{last}" then "first_last"
              else "first.last")
      else None
  | _ => None
  end.

(** [get_known_regional_patterns(domain)], dicts in insertion order. *)
Definition known_regional_patterns : list (string * list (string * string)) :=
  [("bureauveritas.com",
     [("us.bureauveritas.com", "first.last"); ("uk.bureauveritas.com", "first.last");
      ("ca.bureauveritas.com", "first.last"); ("au.bureauveritas.com", "first.last")]);
   ("ul.com", []);
   ("dnvgl.com",
     [("us.dnvgl.com", "first.last"); ("no.dnvgl.com", "first.last");
      ("uk.dnvgl.com", "first.last")]);
   ("tuvsud.com",
     [("us.tuvsud.com", "first.last"); ("de.tuvsud.com", "first.last");
      ("uk.tuvsud.com", "first.last")]);
   ("sgs.com",
     [("us.sgs.com", "first.last"); ("uk.sgs.com", "first.last");
      ("ca.sgs.com", "first.last"); ("de.sgs.com", "first.last")]);
   ("intertek.com",
     [("us.intertek.com", "first.last"); ("uk.intertek.com", "first.last");
      ("ca.intertek.com", "first.last")]);
   ("ge.com",
     [("us.ge.com", "first.last"); ("uk.ge.com", "first.last");
      ("de.ge.com", "first.last")]);
   ("siemens.com",
     [("usa.siemens.com", "first.last"); ("uk.siemens.com", "first.last");
      ("de.siemens.com", "first.last")]);
   ("abb.com",
     [("us.abb.com", "first.last"); ("uk.abb.com", "first.last");
      ("de.abb.com", "first.last")]);
   ("emerson.com", [("us.emerson.com", "first.last"); ("uk.emerson.com", "first.last")]);
   ("honeywell.com",
     [("us.honeywell.com", "first.last"); ("uk.honeywell.com", "first.last")])].

Definition get_known_regional_patterns (domain : string) : list (string * string) :=
  default [] (assoc domain known_regional_patterns).

(** [get_known_pattern(domain)]: every entry of the table is [first.last]
    except [dell.com]. *)
Definition known_first_last_domains : list string :=
  ["google.com"; "microsoft.com"; "apple.com"; "amazon.com";
     "facebook.com"; "linkedin.com"; "twitter.com"; "salesforce.com";
     "oracle.com"; "ibm.com"; "hp.com"; "intel.com"; "cisco.com";
     "adobe.com"; "ul.com"; "bureauveritas.com"; "dnvgl.com"; "dnv.com";
     "tuvsud.com"; "tuv.com"; "tuvnord.com"; "tuvrheinland.com"; "sgs.com";
     "intertek.com"; "mistrasgroup.com"; "applus.com"; "dekra.com";
     "element.com"; "exova.com"; "nde.net"; "tcr-inc.com"; "team-inc.com";
     "olympus-ims.com"; "ge.com"; "bakerhughes.com"; "halliburton.com";
     "schlumberger.com"; "zetec.com"; "sonatest.com"; "ndt.net"; "asnt.org";
     "aws.org"; "api.org"; "astm.org"; "iso.org"; "ansi.org"; "nist.gov";
     "aecom.com"; "jacobs.com"; "ch2m.com"; "fluor.com"; "kbr.com";
     "worleyparsons.com"; "wood.com"; "technipfmc.com"; "saipem.com";
     "petrofac.com"; "exxonmobil.com"; "chevron.com"; "shell.com"; "bp.com";
     "totalenergies.com"; "conocophillips.com"; "equinor.com"; "eni.com";
     "siemens.com"; "abb.com"; "emerson.com"; "honeywell.com";
     "rockwellautomation.com"; "schneider-electric.com"; "yokogawa.com";
     "endress.com"; "rosemount.com"; "fluke.com"; "keysight.com";
     "tektronix.com"; "rohde-schwarz.com"; "ni.com"].

Definition get_known_pattern (domain : string) : option string :=
  if String.eqb domain "dell.com" then Some "first_last"
  else if existsb (String.eqb domain) known_first_last_domains then Some "first.last"
  else None.

(** [detect_regional_domains(company_name, domain)] (web search): the
    regional domains found, in discovery order, each with its pattern. *)
Definition regional_oracle := string -> string -> list (string * string).

(** [google_search_email_pattern] and [scrape_company_website]. *)
Definition pattern_oracle2 := string -> string -> option string.

(** Method 1 of [get_verified_email_pattern]: the Hunter.io pattern, when
    there is one, becomes the primary and the recommended pattern. *)
Definition hunter_step (pattern : option string) (result : pattern_result) : pattern_result :=
  match pattern with
  | Some p => with_recommended_pattern p (with_primary_pattern p result)
  | None => result
  end.

(** Method 2 (known regional patterns) and, failing it, Method 3
    (detected regional domains). *)
Definition regional_step (detect : regional_oracle) (company_name domain : string)
    (result : pattern_result) : pattern_result :=
  let known_regional := get_known_regional_patterns domain in
  let us_domain := "us." ++ domain in
  let usa_domain := "usa." ++ domain in
  match known_regional with
  | (first_regional, first_pattern) :: _ =>
      let result := with_regional known_regional result in
      match assoc us_domain known_regional with
      | Some p => with_recommended us_domain p result
      | None =>
          match assoc usa_domain known_regional with
          | Some p => with_recommended usa_domain p result
          | None => with_recommended first_regional first_pattern result
          end
      end
  | [] =>
      match regional_domains result with
      | [] =>
          let detected := detect company_name domain in
          match detected with
          | [] => result
          | _ :: _ =>
              let result := with_regional detected result in
              match assoc us_domain detected with
              | Some p => with_recommended us_domain p result
              | None => result
              end
          end
      | _ :: _ => result
      end
  end.

(** The second "Method 3": the known patterns database, only while the
    primary pattern is [first.last]. *)
Definition known_pattern_step (domain : string) (result : pattern_result) : pattern_result :=
  if String.eqb (primary_pattern result) "first.last" then
    match get_known_pattern domain with
    | Some p =>
        let result := with_primary_pattern p result in
        match regional_domains result with
        | [] => with_recommended_pattern p result
        | _ => result
        end
    | None => result
    end
  else result.

(** Methods 4 and 5 (Google search, website scraping): the pattern found
    is taken only while the primary pattern is [first.last] and no
    regional domain is recorded. *)
Definition search_step (found : option string) (result : pattern_result) : pattern_result :=
  if String.eqb (primary_pattern result) "first.last"
     && match regional_domains result with [] => true | _ => false end then
    match found with
    | Some p => with_recommended_pattern p (with_primary_pattern p result)
    | None => result
    end
  else result.

(** The body of [get_verified_email_pattern] after the cache test. *)
Definition resolve_pattern_result (h : hunter_oracle) (hunter_api_key : string)
    (detect : regional_oracle) (google : pattern_oracle2) (website : website_oracle)
    (company_name domain : string) : pattern_result :=
  let result := mkPatternResult domain "first.last" [] domain "first.last" in
  let result := hunter_step (query_hunter_io h hunter_api_key domain) result in
  let result := regional_step detect company_name domain result in
  let result := known_pattern_step domain result in
  let result := search_step (google company_name domain) result in
  search_step (website domain) result.

Definition get_verified_email_pattern (h : hunter_oracle) (hunter_api_key : string)
    (detect : regional_oracle) (google : pattern_oracle2) (website : website_oracle)
    (cache : gmap string pattern_result) (company_name domain : string)
  : pattern_result * gmap string pattern_result :=
  let cache_key := domain ++ "_" ++ company_name in
  match cache !! cache_key with
  | Some r => (r, cache)
  | None =>
      let r := resolve_pattern_result h hunter_api_key detect google website
                 company_name domain in
      (r, <[cache_key := r]> cache)
  end.

(** The regional-domain preference as the spec words it (section 4.4,
    step 3): [us.<domain>], else [usa.<domain>], else the first regional
    domain found.  Stated for comparison with [resolve_pattern_result]. *)
Definition spec_recommended_domain (domain : string) (m : list (string * string)) : string :=
  match assoc ("us." ++ domain) m with
  | Some _ => "us." ++ domain
  | None =>
      match assoc ("usa." ++ domain) m with
      | Some _ => "usa." ++ domain
      | None => match m with (d, _) :: _ => d | [] => domain end
      end
  end.

(** *** Candidate generation: the nested [test_multiple_email_patterns] *)

(** [PATTERN_FUNCS] of this module: [None] when [p] is not a key
    ([KeyError]).  The templates return [""] where they guard. *)
Definition PATTERN_FUNCS (p : string) : option (string -> string -> string) :=
  let init s := match s with EmptyString => "" | String c _ => String c EmptyString end in
  let nonempty s := negb (String.eqb s "") in
  if String.eqb p "first.last" then Some (fun f l => f ++ "." ++ l)
  else if String.eqb p "f.last" then Some (fun f l => if nonempty f then init f ++ "." ++ l else "")
  else if String.eqb p "firstl" then Some (fun f l => if nonempty l then f ++ init l else "")
  else if String.eqb p "first_last" then Some (fun f l => f ++ "_" ++ l)
  else if String.eqb p "firstlast" then Some (fun f l => f ++ l)
  else if String.eqb p "f_last" then Some (fun f l => if nonempty f then init f ++ l else "")
  else if String.eqb p "flast" then
    Some (fun f l => if nonempty f && nonempty l then init f ++ l else "")
  else if String.eqb p "lastf" then
    Some (fun f l => if nonempty f && nonempty l then l ++ init f else "")
  else if String.eqb p "last" then Some (fun f l => l)
  else if String.eqb p "first" then Some (fun f l => f)
  else None.

(** The value of [process_multi_part_name]: a dict of three variants or a
    string. *)
Inductive name_parts :=
  | MultiPart (hyphenated concatenated original : string)
  | Plain (s : string).

Definition process_multi_part_name (name_str : string) (is_last_name : bool) : name_parts :=
  let name := strip name_str in
  if String.eqb name "" then Plain "" else
  if contains " " name && is_last_name then
    match split_ws name with
    | [a; b] => MultiPart (lower (join "-" [a; b])) (lower (a ++ b))
                          (lower (remove_char " " name))
    | _ => Plain (lower name)
    end
  else Plain (lower name).

Definition name_variants (processed : name_parts) : list string :=
  match processed with
  | MultiPart h c o => [h; c; o]
  | Plain s => [s]
  end.

Definition common_patterns : list string :=
  ["first.last"; "firstlast"; "first_last"; "f.last"; "firstl"; "flast"; "lastf"].

Definition pattern_priority (primary_pattern : string) : list string :=
  fold_left (fun acc x => if existsb (String.eqb x) acc then acc else app acc [x])
    common_patterns [primary_pattern].

(** [signalhire_email_lookup(first, last, domain).get('email')]; the
    function catches its own exceptions. *)
Definition signalhire_oracle := string -> string -> string -> option string.

(** How the nested loops end: a verified email, or all candidates tried. *)
Inductive loop_result := Found (email : string) | Exhausted.

(** One candidate: the body of the inner [for variant_ln in name_variants]
    loop. *)
Definition test_candidate (o : nb_oracle) (sh : signalhire_oracle) (nb_api_key : string)
    (fn actual_domain pattern variant_ln : string) : M loop_result :=
  if String.eqb variant_ln "" then mret Exhausted else
  try_with
  match PATTERN_FUNCS pattern with
  | None => raise EOther
  | Some f =>
      let local := f fn variant_ln in
      if String.eqb local "" then mret Exhausted else
      let test_email := local ++ "@" ++ actual_domain in
      modify (log_tested pattern variant_ln);;
      r ← try_with
            match sh fn variant_ln actual_domain with
            | Some found_email =>
                if String.eqb found_email "" then mret Exhausted else
                ok ← verify_email_nvb o nb_api_key found_email;
                mret (if (ok : bool) then Found found_email else Exhausted)
            | None => mret Exhausted
            end
            (fun _ => mret Exhausted);
      match r with
      | Found e => mret (Found e)
      | Exhausted =>
          ok ← verify_email_nvb o nb_api_key test_email;
          mret (if (ok : bool) then Found test_email else Exhausted)
      end
  end
  (fun _ => mret Exhausted).

Fixpoint variant_loop (o : nb_oracle) (sh : signalhire_oracle) (nb_api_key : string)
    (fn actual_domain pattern : string) (vs : list string) : M loop_result :=
  match vs with
  | [] => mret Exhausted
  | v :: vs' =>
      r ← test_candidate o sh nb_api_key fn actual_domain pattern v;
      match r with
      | Found e => mret (Found e)
      | Exhausted => variant_loop o sh nb_api_key fn actual_domain pattern vs'
      end
  end.

Fixpoint pattern_loop (o : nb_oracle) (sh : signalhire_oracle) (nb_api_key : string)
    (fn actual_domain : string) (ps vs : list string) : M loop_result :=
  match ps with
  | [] => mret Exhausted
  | p :: ps' =>
      r ← variant_loop o sh nb_api_key fn actual_domain p vs;
      match r with
      | Found e => mret (Found e)
      | Exhausted => pattern_loop o sh nb_api_key fn actual_domain ps' vs
      end
  end.

(** The search order the spec states: pattern-major pairs
    [(pattern0, variant0), (pattern0, variant1), ..., (pattern1, variant0), ...]. *)
Definition search_order (ps vs : list string) : list (string * string) :=
  flat_map (fun p => map (fun v => (p, v)) vs) ps.

(** [test_multiple_email_patterns(fn, ln, domain)]; [domain_mappings] and
    [patterns_by_domain] are the dicts [fill_emails] builds before. *)
Definition test_multiple_email_patterns (o : nb_oracle) (sh : signalhire_oracle)
    (nb_api_key : string) (domain_mappings patterns_by_domain : list (string * string))
    (fn ln domain : string) : M string :=
  let actual_domain := default domain (assoc domain domain_mappings) in
  let processed_ln := process_multi_part_name ln true in
  let primary_pattern := default "first.last" (assoc actual_domain patterns_by_domain) in
  let vs := name_variants processed_ln in
  r ← pattern_loop o sh nb_api_key fn actual_domain (pattern_priority primary_pattern) vs;
  match r with
  | Found e => mret e
  | Exhausted =>
      let fallback_ln := match vs with v :: _ => v | [] => ln end in
      match PATTERN_FUNCS primary_pattern with
      | Some f =>
          let local := f fn fallback_ln in
          mret (if negb (String.eqb local "") && negb (String.eqb actual_domain "")
                then local ++ "@" ++ actual_domain else "")
      | None => mret ""
      end
  end.

(** *** [normalize], [split_email], [EMAIL_RE] *)

(** [normalize(s)] of a cell; [None] is NaN. *)
Definition normalize (s : option string) : string :=
  match s with
  | None => ""
  | Some s => lower (strip s)
  end.

Definition split_email (email : string) : string * string :=
  let '(local, _, domain) := partition "@" (lower email) in (local, domain).

Definition email_local_char (c : ascii) : bool :=
  is_alpha c || is_digit c || char_in "._%+-" c.

Definition email_host_char (c : ascii) : bool :=
  is_alpha c || is_digit c || char_in ".-" c.

(** A full match of [[A-Za-z0-9._%+-]+@[A-Za-z0-9.-]+\.[A-Za-z]{2,}]: the
    local part has no [@], so it ends at the first [@]; the top-level
    domain has no dot, so it follows the last dot. *)
Definition email_re_full (t : string) : bool :=
  let '(local, sep, rest) := partition "@" t in
  let tld := rev_str (split_first "." (rev_str rest)) in
  let host_len := String.length rest - String.length tld - 1 in
  let host := substring 0 host_len rest in
  negb (String.eqb sep "") && negb (String.eqb local "")
  && forallb email_local_char (list_ascii_of_string local)
  && contains "." rest
  && Nat.leb 2 (String.length tld)
  && forallb is_alpha (list_ascii_of_string tld)
  && Nat.leb 1 host_len
  && forallb email_host_char (list_ascii_of_string host).

(** [EMAIL_RE.match(s)]; [$] also matches before a final newline. *)
Definition email_re_match (s : string) : bool :=
  email_re_full s
  || (endswith (String "010" EmptyString) s
      && email_re_full (substring 0 (String.length s - 1) s)).

(** *** [best_pattern] *)

(** The keys of [PATTERN_FUNCS], in dict order. *)
Definition pattern_keys : list string :=
  ["first.last"; "f.last"; "firstl"; "first_last"; "firstlast"; "f_last";
   "flast"; "lastf"; "last"; "first"].

(** A row of the known-emails frame; [None] cells are NaN. *)
Record known_row := mkKnownRow {
  row_first : option string;
  row_last : option string;
  row_domain : option string;
  row_email : option string
}.

(** The body of the [for _, r in rows.iterrows()] loop: the pattern the
    row counts for, the first in dict order whose template gives the
    local part of its email. *)
Definition row_pattern (r : known_row) : option string :=
  let fn := normalize (row_first r) in
  let ln := normalize (row_last r) in
  let email := normalize (row_email r) in
  if negb (email_re_match email) then None else
  let '(local, _) := split_email email in
  find (fun name => match PATTERN_FUNCS name with
                    | Some func => String.eqb (func fn ln) local
                    | None => false
                    end) pattern_keys.

Definition best_pattern (rows : list known_row) : option string :=
  let counts :=
    fold_left (fun counts r => match row_pattern r with
                               | Some name => dict_add name 1 counts
                               | None => counts
                               end) rows [] in
  match counts with
  | [] => None
  | x :: l =>
      let '(most_common, freq) := max_first x l in
      if Nat.leb 2 freq then Some most_common else None
  end.

(** *** [standardize_column_names], on the column labels *)

Definition column_mapping : list (string * string) :=
  [("First", "first_name"); ("Last", "last_name"); ("Domain", "domain");
   ("LinkedIn Profile", "linkedin"); ("Email", "email");
   ("Telephone", "phone_number"); ("Phone", "phone_number");
   ("Phone Number", "phone_number"); ("Mobile", "phone_number");
   ("Cell Phone", "phone_number"); ("Work Phone", "phone_number");
   ("Business Phone", "phone_number"); ("Company", "company")].

Definition required_columns : list string :=
  ["first_name"; "last_name"; "domain"; "email"; "phone_number"].

(** [df.rename(columns={old: new})] *)
Definition rename_column (old new : string) (cols : list string) : list string :=
  map (fun c => if String.eqb c old then new else c) cols.

Definition standardize_column_names (cols : list string) : list string :=
  let cols :=
    fold_left (fun cols '(old_name, new_name) =>
                 if existsb (String.eqb old_name) cols
                 then rename_column old_name new_name cols else cols)
      column_mapping cols in
  fold_left (fun cols col =>
               if existsb (String.eqb col) cols then cols else app cols [col])
    required_columns cols.

(** *** [patterns_by_domain] and [domain_mappings] in [fill_emails] *)

(** [d[k] = v] on a dict kept as an association list in insertion order. *)
Fixpoint dict_set {A} (k : string) (v : A) (d : list (string * A)) : list (string * A) :=
  match d with
  | [] => [(k, v)]
  | (k', v') :: d' => if String.eqb k k' then (k', v) :: d' else (k', v') :: dict_set k v d'
  end.

Definition dict_has {A} (k : string) (d : list (string * A)) : bool :=
  match assoc k d with Some _ => true | None => false end.

(** The loop over [verified_patterns.items()]. *)
Definition build_domain_tables (verified_patterns : list (string * pattern_result))
  : list (string * string) * list (string * string) :=
  fold_left (fun '(patterns_by_domain, domain_mappings) '(domain, result) =>
               let rd := recommended_domain result in
               let rp := recommended_pattern result in
               let patterns_by_domain := dict_set rd rp patterns_by_domain in
               if negb (String.eqb rd domain)
               then (patterns_by_domain, dict_set domain rd domain_mappings)
               else (dict_set domain rp patterns_by_domain, domain_mappings))
    verified_patterns ([], []).

(** [series.unique()]: first occurrences, in order. *)
Definition unique (l : list string) : list string :=
  fold_left (fun acc x => if existsb (String.eqb x) acc then acc else app acc [x]) l [].

(** The fallback loop over [df_contacts["domain"].dropna().unique()]. *)
Definition fallback_patterns (contact_domains : list (option string)) (known : list known_row)
    (tables : list (string * string) * list (string * string))
  : list (string * string) * list (string * string) :=
  fold_left (fun '(patterns_by_domain, domain_mappings) domain =>
               if negb (String.eqb domain "") && negb (dict_has domain patterns_by_domain)
                  && negb (dict_has domain domain_mappings) then
                 let domain_rows :=
                   List.filter (fun r => match row_domain r with
                                    | Some d => String.eqb d domain
                                    | None => false
                                    end) known in
                 if negb (Nat.eqb (length domain_rows) 0) then
                   match best_pattern domain_rows with
                   | Some pattern => (dict_set domain pattern patterns_by_domain, domain_mappings)
                   | None => (dict_set domain "first.last" patterns_by_domain, domain_mappings)
                   end
                 else (dict_set domain "first.last" patterns_by_domain, domain_mappings)
               else (patterns_by_domain, domain_mappings))
    (unique (omap (fun d => d) contact_domains)) tables.

Definition domain_tables (verified_patterns : list (string * pattern_result))
    (contact_domains : list (option string)) (known : list known_row)
  : list (string * string) * list (string * string) :=
  fallback_patterns contact_domains known (build_domain_tables verified_patterns).

(** The relation the two tables keep: every domain [domain_mappings] maps
    has a pattern in [patterns_by_domain]. *)
Definition tables_ok (t : list (string * string) * list (string * string)) : Prop :=
  forall d d', assoc d (snd t) = Some d' -> dict_has d' (fst t) = true.

(** *** The pattern stage at the end of [gen] *)

Fixpoint try_other_patterns (o : nb_oracle) (nb_api_key fn ln domain_clean : string)
    (ps : list string) : M (option string) :=
  match ps with
  | [] => mret None
  | patt :: ps' =>
      match PATTERN_FUNCS patt with
      | None => raise EOther
      | Some f =>
          let candidate := f fn ln ++ "@" ++ domain_clean in
          if email_re_match candidate then
            ok ← verify_email_nvb o nb_api_key candidate;
            if (ok : bool) then mret (Some candidate)
            else try_other_patterns o nb_api_key fn ln domain_clean ps'
          else try_other_patterns o nb_api_key fn ln domain_clean ps'
      end
  end.

(** From [best_pattern = patterns_by_domain.get(domain_clean, "first.last")]
    to the end of [gen]: the email, its status and the phone number. *)
Definition gen_pattern_stage (o : nb_oracle) (nb_api_key : string)
    (patterns_by_domain : list (string * string)) (fn ln domain_clean : string)
    (phone_number : option string) : M (string * string * string) :=
  let best_pattern := default "first.last" (assoc domain_clean patterns_by_domain) in
  let phone := default "" phone_number in
  match PATTERN_FUNCS best_pattern with
  | None => raise EOther
  | Some f =>
      let candidate := f fn ln ++ "@" ++ domain_clean in
      ok ← (if email_re_match candidate then verify_email_nvb o nb_api_key candidate
            else mret false);
      if (ok : bool) then mret (candidate, "pattern_valid", phone) else
      found ← try_other_patterns o nb_api_key fn ln domain_clean
                (List.filter (fun p => negb (String.eqb p best_pattern)) pattern_keys);
      match found with
      | Some c => mret (c, "pattern_valid", phone)
      | None =>
          let best_email := f fn ln ++ "@" ++ domain_clean in
          if email_re_match best_email then mret (best_email, "unverified", phone) else
          let fallback_email := fn ++ "." ++ ln ++ "@" ++ domain_clean in
          if email_re_match fallback_email then mret (fallback_email, "fallback", phone)
          else mret (fn ++ ln ++ "@" ++ domain_clean, "emergency_fallback", phone)
      end
  end.

(** *** [gen] from its first-name test on

    [gen] first normalizes the names and may replace them from the
    LinkedIn profile or a Google search; [fn] and [ln] below are the
    names after that stage. *)






















End PatternFiller.
(* ================================================================= *)
(** ** [enhanced_email_filler.py] *)
(* ================================================================= *)

Module EnhancedFiller.
Import Py Effects.

(** [verify_email_neverbounce]; [NB_API_KEY] is a parameter (the script
    sets a non-empty constant).  It has no cache. *)
Definition verify_email_neverbounce (o : nb_oracle) (nb_api_key email : string) : M bool :=
  if String.eqb email "" || String.eqb nb_api_key "" then mret false else
  try_with
    (resp ← nb_get o email;
     let '(status, body) := resp in
     if Z.eqb status 200 then
       result ← json_get_result (Some "") body;
       r ← py_lower result;
       mret (bool_decide (r = "valid") || bool_decide (r = "catchall"))
     else mret false)
    (fun _ => mret false).

(** [clean_name] has the same body as in [robust_email_filler.py]. *)
Definition clean_name : string -> string := RobustFiller.clean_name.

(** [PATTERN_FUNCS] has the same eight templates as in
    [robust_email_filler.py]. *)
Definition PATTERN_FUNCS := RobustFiller.PATTERN_FUNCS.

Definition KNOWN_PATTERNS : list (string * string) :=
  [("bureauveritas.com", "first.last"); ("us.bureauveritas.com", "first.last");
   ("ul.com", "first.last"); ("dnvgl.com", "first.last");
   ("tuvsud.com", "first.last"); ("mistrasgroup.com", "first.last")].

(** *** [search_google_for_email_pattern] *)

Definition search_queries (company_name domain : string) : list string :=
  [dq ++ domain ++ dq ++ " email format employees contact";
   dq ++ company_name ++ dq ++ " email address format";
   "site:" ++ domain ++ " email contact";
   dq ++ domain ++ dq ++ " " ++ dq ++ "@" ++ domain ++ dq ++ " email pattern"].

(** [pattern_indicators], in dict order. *)
Definition pattern_indicators : list (string * list string) :=
  [("first.last", ["firstname.lastname"; "first.last"; "john.doe"; "jane.smith";
                   "name.surname"; "givenname.familyname"]);
   ("f.last", ["j.doe"; "first initial"; "f.lastname"; "initial.surname";
               "firstletter.last"]);
   ("firstlast", ["johndoe"; "firstlast"; "firstname lastname"; "no dot";
                  "together"; "concatenated"]);
   ("first_last", ["first_last"; "firstname_lastname"; "john_doe"; "underscore"]);
   ("firstl", ["johns"; "firstl"; "first letter last"; "abbreviated"]);
   ("first", ["first name only"; "firstname@"; "just first"])].

(** [pattern_scores] for one page. *)
Definition score_content (content : string) : list (string * nat) :=
  fold_left (fun pattern_scores '(pattern, indicators) =>
               let score := length (List.filter (fun i => substr_in i content) indicators) in
               if Nat.ltb 0 score then app pattern_scores [(pattern, score)]
               else pattern_scores)
    pattern_indicators [].

Fixpoint search_loop (g : page_oracle) (queries : list string) : option string :=
  match queries with
  | [] => None
  | q :: qs =>
      match g q with
      | PResponse status text =>
          if Z.eqb status 200 then
            match score_content (lower text) with
            | x :: l => Some (fst (max_first x l))
            | [] => search_loop g qs
            end
          else search_loop g qs
      | _ => search_loop g qs
      end
  end.

Definition search_google_for_email_pattern (g : page_oracle) (company_name domain : string)
  : option string :=
  search_loop g (search_queries company_name domain).

(** *** [get_hunter_email_pattern] and [get_verified_email_pattern] *)

(** The request, the answer handling and the [except] are those of the
    Hunter.io block of [robust_email_filler.py]. *)
Definition get_hunter_email_pattern (h : Hunter.hunter_oracle) (hunter_api_key domain : string)
  : M (option string) :=
  if String.eqb hunter_api_key "" then mret None
  else RobustFiller.hunter_lookup h domain.

(** [if x:] on an optional string. *)
Definition truthy (x : option string) : bool :=
  match x with Some s => negb (String.eqb s "") | None => false end.

Definition get_verified_email_pattern (h : Hunter.hunter_oracle) (g : page_oracle)
    (hunter_api_key company_name domain : string) : M string :=
  let domain := strip (lower domain) in
  cached ← pattern_cache_get domain;
  match cached with
  | Some p => mret p
  | None =>
  match RobustFiller.assoc domain KNOWN_PATTERNS with
  | Some pattern => pattern_cache_put domain pattern;; mret pattern
  | None =>
  hunter_pattern ← get_hunter_email_pattern h hunter_api_key domain;
  if truthy hunter_pattern then
    let hp := default "" hunter_pattern in
    pattern_cache_put domain hp;; mret hp
  else
  let google_pattern := search_google_for_email_pattern g company_name domain in
  if truthy google_pattern then
    let gp := default "" google_pattern in
    pattern_cache_put domain gp;; mret gp
  else
  let default_pattern := "first.last" in
  pattern_cache_put domain default_pattern;; mret default_pattern
  end end.

(** *** [generate_email_with_pattern] *)

(** [Ok None] is a returned [None]; [Raise] an [IndexError] of a template. *)
Definition generate_email_with_pattern (first_name last_name domain pattern : string)
  : exc (option string) :=
  let first := clean_name first_name in
  let last := clean_name last_name in
  if String.eqb first "" || String.eqb last "" || String.eqb domain "" then Ok None else
  let pattern :=
    if Nat.eqb (String.length last) 1 && existsb (String.eqb pattern) ["firstl"; "f.last"]
    then "first" else pattern in
  match PATTERN_FUNCS pattern with
  | Some f =>
      match f first last with
      | Some local_part => Ok (Some (local_part ++ "@" ++ domain))
      | None => Raise EOther
      end
  | None => Ok None
  end.

Definition lift_exc {A} (r : exc A) : M A :=
  match r with Ok a => mret a | Raise e => raise e end.

(** *** [generate_and_verify_email] *)

(** The [for alt_pattern in alternative_patterns] loop: the pattern and
    email that verified, if any. *)
Fixpoint try_alternatives (o : nb_oracle) (nb_api_key : string)
    (first_name last_name domain pattern : string) (alts : list string)
  : M (option (string * string)) :=
  match alts with
  | [] => mret None
  | alt_pattern :: alts' =>
      if String.eqb alt_pattern pattern
      then try_alternatives o nb_api_key first_name last_name domain pattern alts' else
      alt_email ← lift_exc (generate_email_with_pattern first_name last_name domain alt_pattern);
      if truthy alt_email then
        ok ← verify_email_neverbounce o nb_api_key (default "" alt_email);
        if (ok : bool) then mret (Some (alt_pattern, default "" alt_email))
        else try_alternatives o nb_api_key first_name last_name domain pattern alts'
      else try_alternatives o nb_api_key first_name last_name domain pattern alts'
  end.

Definition alternative_patterns : list string :=
  ["first.last"; "f.last"; "firstlast"; "first_last"; "firstl"].

Definition generate_and_verify_email (h : Hunter.hunter_oracle) (g : page_oracle)
    (o : nb_oracle) (hunter_api_key nb_api_key : string)
    (first_name last_name company_name domain : string) : M (option string * bool) :=
  pattern ← get_verified_email_pattern h g hunter_api_key company_name domain;
  email ← lift_exc (generate_email_with_pattern first_name last_name domain pattern);
  if negb (truthy email) then mret (None, false) else
  is_valid ← verify_email_neverbounce o nb_api_key (default "" email);
  if (is_valid : bool) then mret (email, true) else
  r ← try_alternatives o nb_api_key first_name last_name domain pattern alternative_patterns;
  match r with
  | Some (alt_pattern, alt_email) =>
      pattern_cache_put domain alt_pattern;; mret (Some alt_email, true)
  | None => mret (email, false)
  end.

End EnhancedFiller.

(* ================================================================= *)
(** * Properties *)
(* ================================================================= *)

Module Deliverable.
Import Py Effects.

(** The answer each verifier derives from one provider response. *)
Definition deliverable_enhanced (out : nb_outcome) : bool :=
  match out with
  | NBResponse c (JObject (JStr r)) =>
      Z.eqb c 200 && (bool_decide (lower r = "valid") || bool_decide (lower r = "catchall"))
  | _ => false
  end.

Definition deliverable_nvb (out : nb_outcome) : bool :=
  match out with
  | NBResponse _ (JObject (JStr r)) => bool_decide (r = "valid")
  | _ => false
  end.

End Deliverable.

Module VerificationFacts.
Import Py Effects.

Lemma eqb_neq_false (a b : string) : a <> b -> String.eqb a b = false.
Proof. intros H. apply String.eqb_neq. exact H. Qed.

(** One attempt of the retry loop never raises, sends exactly one request,
    and writes the cache only when it returns. *)
Lemma verify_attempt_shape (o : nb_oracle) (email : string) (st : state) :
  exists step,
    RobustFiller.verify_attempt o email st =
      (Ok step,
       set_verify_cache
         (match step with
          | RobustFiller.Returned b => <[email := b]> (verify_cache st)
          | _ => verify_cache st
          end) (log_nb email st)).
Proof.
  unfold RobustFiller.verify_attempt, try_with, nb_get, mbind, M_bind, mret, M_ret,
    raise, verify_cache_put, modify, json_get_result, py_lower.
  destruct (o email (length (nb_log st))) as [| | c b].
  - exists RobustFiller.Continue. destruct st; reflexivity.
  - exists RobustFiller.Break. destruct st; reflexivity.
  - destruct (Z.eqb c 200).
    + destruct b as [| | [| s |]]; simpl.
      * exists RobustFiller.Break. destruct st; reflexivity.
      * exists RobustFiller.Break. destruct st; reflexivity.
      * eexists (RobustFiller.Returned _). reflexivity.
      * eexists (RobustFiller.Returned _). reflexivity.
      * exists RobustFiller.Break. destruct st; reflexivity.
    + exists RobustFiller.Continue. destruct st; reflexivity.
Qed.



End VerificationFacts.

Module RobustFacts.
Import Py Effects Hunter RobustFiller.

Lemma retry_loop_keeps_patterns (o : nb_oracle) (email : string) (n : nat) (st : state) :
  exists r st', retry_loop o email n st = (Ok r, st') /\
                pattern_cache st' = pattern_cache st.
Proof.
  revert st. induction n as [| n IH]; intros st.
  - exists None, st. split; reflexivity.
  - simpl. unfold mbind, M_bind.
    destruct (VerificationFacts.verify_attempt_shape o email st) as [step Hstep].
    rewrite Hstep. destruct step as [b | |]; unfold mret, M_ret.
    + eexists _, _. split; reflexivity.
    + destruct (IH (set_verify_cache (verify_cache st) (log_nb email st)))
        as (r & st' & Hr & Hp).
      exists r, st'. split; [exact Hr | rewrite Hp; reflexivity].
    + eexists _, _. split; reflexivity.
Qed.

(** [verify_email_with_retry] never raises and leaves the pattern cache
    alone. *)
Lemma verify_with_retry_keeps_patterns (o : nb_oracle) (key : string) (n : nat)
    (email : string) (st : state) :
  exists b st', verify_email_with_retry o key n email st = (Ok b, st') /\
                pattern_cache st' = pattern_cache st.
Proof.
  unfold verify_email_with_retry.
  destruct (String.eqb email "" || String.eqb key "").
  - exists false, st. split; reflexivity.
  - unfold verify_cache_get, gets, mbind, M_bind, mret, M_ret.
    destruct (verify_cache st !! email) as [b |].
    + exists b, st. split; reflexivity.
    + destruct (retry_loop_keeps_patterns o email n st) as (r & st' & Hr & Hp).
      rewrite Hr. destruct r as [b |].
      * exists b, st'. split; [reflexivity | exact Hp].
      * unfold verify_cache_put, modify. eexists _, _. split; [reflexivity|].
        simpl. exact Hp.
Qed.

(** The Hunter.io block never raises; its only effect is the logged request. *)
Lemma hunter_lookup_shape (h : hunter_oracle) (domain : string) (st : state) :
  exists r, hunter_lookup h domain st = (Ok r, log_lookup domain st).
Proof.
  unfold hunter_lookup, try_with, modify, mbind, M_bind, mret, M_ret, raise.
  simpl. destruct (h domain) as [| | c b]; [eexists; reflexivity | eexists; reflexivity |].
  destruct (Z.eqb c 200); [| eexists; reflexivity].
  destruct b as [| | [| | pat conf]]; try (eexists; reflexivity).
  destruct pat as [| | q]; try (eexists; reflexivity).
  destruct (String.eqb q ""); eexists; reflexivity.
Qed.

(** [get_verified_email_pattern] never raises, and afterwards the cache
    holds the returned pattern under the normalised domain. *)
Lemma get_verified_caches (h : hunter_oracle) (g : google_oracle)
    (key company domain : string) (st : state) :
  exists det st1,
    get_verified_email_pattern h g key company domain st = (Ok det, st1) /\
    pattern_cache st1 !! strip (lower domain) = Some det.
Proof.
  unfold get_verified_email_pattern, pattern_cache_get, pattern_cache_put,
    gets, modify, mbind, M_bind, mret, M_ret.
  destruct (pattern_cache st !! strip (lower domain)) as [p |] eqn:Hc.
  { exists p, st. split; [reflexivity | exact Hc]. }
  destruct (assoc (strip (lower domain)) KNOWN_PATTERNS) as [p |].
  { eexists _, _. split; [reflexivity|]. simpl. apply lookup_insert_eq. }
  destruct (String.eqb key "").
  - destruct (g company (strip (lower domain))) as [p |].
    { eexists _, _. split; [reflexivity|]. simpl. apply lookup_insert_eq. }
    destruct (assoc (get_industry_from_company company) INDUSTRY_PATTERN_HINTS)
      as [[| p l] |];
      (eexists _, _; split; [reflexivity | simpl; apply lookup_insert_eq]).
  - destruct (hunter_lookup_shape h (strip (lower domain)) st) as [r Hr].
    rewrite Hr. destruct r as [p |].
    { eexists _, _. split; [reflexivity|]. simpl. apply lookup_insert_eq. }
    destruct (g company (strip (lower domain))) as [p |].
    { eexists _, _. split; [reflexivity|]. simpl. apply lookup_insert_eq. }
    destruct (assoc (get_industry_from_company company) INDUSTRY_PATTERN_HINTS)
      as [[| p l] |];
      (eexists _, _; split; [reflexivity | simpl; apply lookup_insert_eq]).
Qed.



Lemma append_new_keeps (x : string) (xs : list string) :
  forall l, In x l -> In x (append_new l xs).
Proof.
  unfold append_new. induction xs as [| y xs IH]; intros l H; simpl; [exact H|].
  apply IH. destruct (existsb (String.eqb y) l); [exact H|].
  apply in_or_app. left. exact H.
Qed.

Lemma append_new_adds (x : string) (xs : list string) :
  forall l, In x xs -> In x (append_new l xs).
Proof.
  unfold append_new. induction xs as [| y xs IH]; intros l H; [destruct H|].
  destruct H as [-> | H]; simpl; [| apply IH; exact H].
  apply (append_new_keeps x xs).
  destruct (existsb (String.eqb x) l) eqn:E.
  - apply existsb_exists in E as (z & Hz & Ez). apply String.eqb_eq in Ez. subst z. exact Hz.
  - apply in_or_app. right. left. reflexivity.
Qed.



(** The candidate loop never raises.  A verified result carries the
    generated email of its pattern and caches that pattern under [domain];
    otherwise the pattern cache is untouched and the result is the first
    generated email (or [None] when no pattern generates one). *)
Lemma try_patterns_shape (o : nb_oracle) (key fn ln domain detected : string) :
  forall ps best st,
  exists res st',
    try_patterns o key fn ln domain ps best detected st = (Ok res, st') /\
    match res with
    | (Some e, true, p) =>
        generate_email_with_pattern fn ln domain p = Some e /\
        pattern_cache st' = <[domain := p]> (pattern_cache st)
    | (Some e, false, p) =>
        pattern_cache st' = pattern_cache st /\
        match best with
        | Some (e0, _) => e = e0
        | None => head (omap (generate_email_with_pattern fn ln domain) ps) = Some e
        end
    | (None, _, _) =>
        pattern_cache st' = pattern_cache st /\ best = None /\
        omap (generate_email_with_pattern fn ln domain) ps = []
    end.
Proof.
  induction ps as [| p ps IH]; intros best st.
  - simpl. unfold mret, M_ret. destruct best as [[e0 p0] |].
    + eexists _, _. split; [reflexivity|]. split; reflexivity.
    + eexists _, _. split; [reflexivity|]. split; [reflexivity | split; reflexivity].
  - simpl. destruct (generate_email_with_pattern fn ln domain p) as [email |] eqn:Hg.
    + unfold mbind, M_bind.
      destruct (verify_with_retry_keeps_patterns o key 3 email st) as (b & st1 & Hv & Hp).
      rewrite Hv. destruct b.
      * unfold pattern_cache_put, modify, mret, M_ret. eexists _, _.
        split; [reflexivity|]. split; [exact Hg|]. simpl. rewrite Hp. reflexivity.
      * destruct (IH (match best with None => Some (email, p) | Some b => Some b end) st1)
          as (res & st' & Hrun & Hres).
        exists res, st'. split; [exact Hrun|].
        destruct res as [[[e |] [|]] q].
        -- destruct Hres as [Hq Hpc]. split; [exact Hq|]. rewrite Hpc, Hp. reflexivity.
        -- destruct Hres as [Hpc Hb]. split; [rewrite Hpc; exact Hp|].
           destruct best as [[e0 p0] |]; [exact Hb | simpl; rewrite Hb; reflexivity].
        -- destruct Hres as (_ & Hb & _). destruct best; discriminate.
        -- destruct Hres as (_ & Hb & _). destruct best; discriminate.
    + destruct (IH best st) as (res & st' & Hrun & Hres).
      exists res, st'. split; [exact Hrun|]. exact Hres.
Qed.




End RobustFacts.

Module PatternFacts.
Import Py Effects PatternFiller.

Lemma lower_nonempty (s : string) : s <> "" -> lower s <> "".
Proof. destruct s; [contradiction | discriminate]. Qed.

Lemma rev_str_nonempty (s : string) : s <> "" -> rev_str s <> "".
Proof.
  destruct s as [| c s]; [contradiction|]. intros _. simpl.
  destruct (rev_str s); discriminate.
Qed.

(** The words of [s.split()] are non-empty. *)
Lemma split_ws_aux_nonempty (s : string) :
  forall cur w, In w (split_ws_aux cur s) -> w <> "".
Proof.
  induction s as [| c s IH]; intros cur w Hin; simpl in Hin.
  - destruct (String.eqb cur "") eqn:E; [destruct Hin|].
    destruct Hin as [<- | []]. apply rev_str_nonempty.
    intros ->. discriminate.
  - destruct (is_space c); [| exact (IH _ _ Hin)].
    apply in_app_or in Hin as [Hin | Hin]; [| exact (IH _ _ Hin)].
    destruct (String.eqb cur "") eqn:E; [destruct Hin|].
    destruct Hin as [<- | []]. apply rev_str_nonempty.
    intros ->. discriminate.
Qed.

(** A string with only spaces has no words. *)
Lemma split_ws_aux_blank (s : string) :
  forall cur, remove_char " " s = "" ->
  split_ws_aux cur s = if String.eqb cur "" then [] else [rev_str cur].
Proof.
  induction s as [| c s IH]; intros cur H; [reflexivity|].
  cbn [remove_char] in H. destruct (Ascii.eqb " " c) eqn:E; [| discriminate].
  apply Ascii.eqb_eq in E. subst c. simpl.
  rewrite (IH "" H). simpl. apply app_nil_r.
Qed.

Lemma pattern_funcs_nonempty (p : string) (f : string -> string -> string)
    (fn l : string) :
  PATTERN_FUNCS p = Some f -> fn <> "" -> l <> "" -> f fn l <> "".
Proof.
  intros Hp Hf Hl.
  destruct fn as [| c fn]; [contradiction|]. destruct l as [| d l]; [contradiction|].
  unfold PATTERN_FUNCS in Hp.
  repeat (destruct (String.eqb p _); [injection Hp as <-; simpl; discriminate|]).
  discriminate.
Qed.

Lemma pattern_priority_members (primary x : string) :
  In x (pattern_priority primary) -> x = primary \/ In x common_patterns.
Proof.
  unfold pattern_priority.
  assert (G : forall l acc, In x (fold_left (fun acc x => if existsb (String.eqb x) acc
                                                          then acc else app acc [x]) l acc) ->
                            In x acc \/ In x l).
  { induction l as [| y l IH]; intros acc H; [left; exact H|]. simpl in H.
    apply IH in H as [H | H]; [| right; right; exact H].
    destruct (existsb (String.eqb y) acc); [left; exact H|].
    apply in_app_or in H as [H | [<- | []]]; [left; exact H | right; left; reflexivity]. }
  intros H. apply G in H as [[<- | []] | H]; [left; reflexivity | right; exact H].
Qed.

Lemma pattern_priority_keys (primary : string) :
  PATTERN_FUNCS primary <> None ->
  forall p, In p (pattern_priority primary) -> exists f, PATTERN_FUNCS p = Some f.
Proof.
  intros Hprim p Hin. apply pattern_priority_members in Hin as [-> | Hin].
  - destruct (PATTERN_FUNCS primary) as [f |]; [exists f; reflexivity | contradiction].
  - repeat (destruct Hin as [<- | Hin]; [eexists; reflexivity|]). destruct Hin.
Qed.

Lemma verify_email_nvb_keeps_tested (o : nb_oracle) (key email : string) (st : state) :
  exists b st', verify_email_nvb o key email st = (Ok b, st') /\
                tested_log st' = tested_log st.
Proof.
  unfold verify_email_nvb, verify_cache_get, gets, mbind, M_bind, mret, M_ret,
    try_with, nb_get, json_get_result, raise, verify_cache_put, modify.
  destruct (String.eqb key ""); [eexists _, _; split; reflexivity|].
  destruct (verify_cache st !! email); [eexists _, _; split; reflexivity|].
  destruct (o email (length (nb_log st))) as [| | c b];
    [eexists _, _; split; reflexivity | eexists _, _; split; reflexivity |].
  destruct b as [| | [| |]]; simpl; eexists _, _; split; reflexivity.
Qed.

Ltac run_nvb :=
  match goal with
  | |- context [verify_email_nvb ?o ?k ?e ?s] =>
      let b := fresh "b" in let s' := fresh "st" in
      let Hv := fresh "Hv" in let Ht := fresh "Ht" in
      destruct (verify_email_nvb_keeps_tested o k e s) as (b & s' & Hv & Ht);
      rewrite Hv
  end.

(** A candidate with a non-empty surname variant and local part is logged
    as tested, and its test never raises. *)
Lemma test_candidate_logs (o : nb_oracle) (sh : signalhire_oracle) (key fn dom p v : string)
    (f : string -> string -> string) (st : state) :
  PATTERN_FUNCS p = Some f -> v <> "" -> f fn v <> "" ->
  exists r st', test_candidate o sh key fn dom p v st = (Ok r, st') /\
                tested_log st' = app (tested_log st) [(p, v)].
Proof.
  intros Hp Hv Hl. unfold test_candidate.
  rewrite (VerificationFacts.eqb_neq_false _ _ Hv), Hp,
          (VerificationFacts.eqb_neq_false _ _ Hl).
  unfold try_with, modify, mbind, M_bind, mret, M_ret.
  destruct (sh fn v dom) as [fe |].
  - destruct (String.eqb fe "").
    + run_nvb. eexists _, _. split; [reflexivity|]. rewrite Ht. reflexivity.
    + run_nvb. destruct b.
      * eexists _, _. split; [reflexivity|]. rewrite Ht. reflexivity.
      * run_nvb. eexists _, _. split; [reflexivity|]. rewrite Ht0, Ht. reflexivity.
  - run_nvb. eexists _, _. split; [reflexivity|]. rewrite Ht. reflexivity.
Qed.

Lemma variant_loop_logs (o : nb_oracle) (sh : signalhire_oracle) (key fn dom p : string)
    (f : string -> string -> string) :
  PATTERN_FUNCS p = Some f ->
  forall vs st, (forall v, In v vs -> v <> "" /\ f fn v <> "") ->
  exists r st' k,
    variant_loop o sh key fn dom p vs st = (Ok r, st') /\
    tested_log st' = app (tested_log st) (firstn k (map (fun v => (p, v)) vs)) /\
    k <= length vs /\ (r = Exhausted -> k = length vs).
Proof.
  intros Hp. induction vs as [| v vs IH]; intros st Hvs.
  - exists Exhausted, st, 0. simpl. rewrite app_nil_r. auto.
  - destruct (Hvs v (or_introl eq_refl)) as [Hv Hl].
    destruct (test_candidate_logs o sh key fn dom p v f st Hp Hv Hl)
      as (r1 & st1 & Hrun & Hlog). simpl. unfold mbind, M_bind. rewrite Hrun.
    destruct r1 as [e |].
    + exists (Found e), st1, 1. unfold mret, M_ret. simpl.
      split; [reflexivity|]. split; [exact Hlog|]. split; [lia | discriminate].
    + destruct (IH st1 (fun w H => Hvs w (or_intror H))) as (r & st' & k & Hr & Hl' & Hk & He).
      exists r, st', (S k). split; [exact Hr|].
      split; [rewrite Hl', Hlog; simpl; rewrite <- app_assoc; reflexivity|].
      simpl. split; [lia | intros H; rewrite (He H); reflexivity].
Qed.

Lemma pattern_loop_logs (o : nb_oracle) (sh : signalhire_oracle) (key fn dom : string)
    (vs : list string) :
  forall ps st,
  (forall p, In p ps -> exists f, PATTERN_FUNCS p = Some f /\
                                  forall v, In v vs -> v <> "" /\ f fn v <> "") ->
  exists r st' k,
    pattern_loop o sh key fn dom ps vs st = (Ok r, st') /\
    tested_log st' = app (tested_log st) (firstn k (search_order ps vs)) /\
    (r = Exhausted -> k = length (search_order ps vs)).
Proof.
  induction ps as [| p ps IH]; intros st Hps.
  - exists Exhausted, st, 0. simpl. rewrite app_nil_r. auto.
  - destruct (Hps p (or_introl eq_refl)) as (f & Hp & Hvs).
    destruct (variant_loop_logs o sh key fn dom p f Hp vs st Hvs)
      as (r1 & st1 & k1 & Hrun & Hlog & Hk1 & He1).
    simpl. unfold mbind, M_bind. rewrite Hrun.
    unfold search_order. simpl. fold (search_order ps vs).
    destruct r1 as [e |].
    + exists (Found e), st1, k1. unfold mret, M_ret.
      split; [reflexivity|]. split; [| discriminate].
      rewrite Hlog, firstn_app, length_map.
      replace (k1 - length vs) with 0 by lia. simpl. rewrite app_nil_r. reflexivity.
    + destruct (IH st1 (fun q H => Hps q (or_intror H))) as (r & st' & k & Hr & Hl & He).
      exists r, st', (length vs + k). split; [exact Hr|].
      rewrite (He1 eq_refl) in Hlog. split.
      * rewrite Hl, Hlog, firstn_app, length_map.
        replace (length vs + k - length vs) with k by lia.
        rewrite (firstn_all2 (n := length vs + k)) by (rewrite length_map; lia).
        rewrite (firstn_all2 (n := length vs)) by (rewrite length_map; lia).
        rewrite app_assoc. reflexivity.
      * intros H. rewrite (He H), length_app, length_map. reflexivity.
Qed.

Lemma search_order_nth (ps vs : list string) :
  forall i j p v, nth_error ps i = Some p -> nth_error vs j = Some v ->
  nth_error (search_order ps vs) (length vs * i + j) = Some (p, v).
Proof.
  induction ps as [| q ps IH]; intros i j p v Hi Hj; [destruct i; discriminate|].
  assert (Hjl : j < length vs) by (apply nth_error_Some; congruence).
  unfold search_order. simpl. fold (search_order ps vs).
  destruct i as [| i].
  - simpl in Hi. injection Hi as <-.
    rewrite nth_error_app1 by (rewrite length_map; lia).
    rewrite Nat.mul_0_r, Nat.add_0_l, nth_error_map, Hj. reflexivity.
  - simpl in Hi. rewrite nth_error_app2 by (rewrite length_map; lia).
    rewrite length_map.
    replace (length vs * S i + j - length vs) with (length vs * i + j) by lia.
    exact (IH i j p v Hi Hj).
Qed.

Lemma search_order_length (ps vs : list string) :
  length (search_order ps vs) = length ps * length vs.
Proof.
  induction ps as [| p ps IH]; [reflexivity|].
  unfold search_order. simpl. fold (search_order ps vs).
  rewrite length_app, length_map, IH. reflexivity.
Qed.

(** With a single variant the search order pairs every pattern with it. *)
Lemma search_order_single (ps : list string) (v : string) :
  search_order ps [v] = map (fun p => (p, v)) ps.
Proof.
  induction ps as [| p ps IH]; [reflexivity|].
  simpl. f_equal; exact IH.
Qed.

(** The variants of a surname with a space: three for exactly two words,
    otherwise the lower-cased stripped surname alone. *)
Lemma multi_part_variants (ln : string) :
  contains " " (strip ln) = true ->
  name_variants (process_multi_part_name ln true) =
    match split_ws (strip ln) with
    | [a; b] => [lower (a ++ "-" ++ b); lower (a ++ b); lower (remove_char " " (strip ln))]
    | _ => [lower (strip ln)]
    end.
Proof.
  intros Hsp.
  assert (Hne : strip ln <> "") by (intros E; rewrite E in Hsp; discriminate).
  unfold process_multi_part_name.
  rewrite (VerificationFacts.eqb_neq_false _ _ Hne), Hsp. simpl andb.
  destruct (split_ws (strip ln)) as [| a [| b [| c l]]]; reflexivity.
Qed.

(** Every variant of a surname with a space is non-empty. *)
Lemma multi_part_variants_nonempty (ln : string) :
  contains " " (strip ln) = true ->
  forall v, In v (name_variants (process_multi_part_name ln true)) -> v <> "".
Proof.
  intros Hsp. rewrite (multi_part_variants ln Hsp).
  assert (Hne : strip ln <> "") by (intros E; rewrite E in Hsp; discriminate).
  destruct (split_ws (strip ln)) as [| a [| b [| c l]]] eqn:Hsplit;
    try (intros v [<- | []]; exact (lower_nonempty _ Hne)).
  assert (Ha : a <> "").
  { apply (split_ws_aux_nonempty (strip ln) ""). unfold split_ws in Hsplit.
    rewrite Hsplit. left. reflexivity. }
  assert (Hr : remove_char " " (strip ln) <> "").
  { intros E. pose proof (split_ws_aux_blank (strip ln) "" E) as Hb.
    unfold split_ws in Hsplit. rewrite Hsplit in Hb. discriminate. }
  intros v [<- | [<- | [<- | []]]]; apply lower_nonempty.
  - destruct a; [contradiction | discriminate].
  - destruct a; [contradiction | discriminate].
  - exact Hr.
Qed.

End PatternFacts.

Module DomainFacts.
Import Py.

(** [clean_domain] maps every value whose rewritten form is longer than 40
    characters or has more than 3 dots to the empty string. *)
Lemma clean_domain_rejects_implausible (v : string) :
  (40 < String.length (PatternFiller.domain_candidate v) \/
   3 < count "." (PatternFiller.domain_candidate v)) ->
  PatternFiller.clean_domain v = "".
Proof.
  intros H. unfold PatternFiller.clean_domain.
  destruct H as [H | H].
  - apply Nat.ltb_lt in H. rewrite H. reflexivity.
  - apply Nat.ltb_lt in H. rewrite H, orb_true_r. reflexivity.
Qed.

End DomainFacts.

Module HunterFacts.
Import Py Effects Hunter PatternFiller.

(** With a key and an HTTP 200 answer carrying a non-empty pattern,
    [query_hunter_io] returns a pattern. *)
Lemma query_hunter_some (h : hunter_oracle) (key domain tmpl : string) (conf : option Z) :
  key <> "" -> tmpl <> "" ->
  h domain = HResponse 200 (HObject (HDObject (HPStr tmpl) conf)) ->
  exists p, query_hunter_io h key domain = Some p.
Proof.
  intros Hk Ht Hh. unfold query_hunter_io.
  rewrite (VerificationFacts.eqb_neq_false _ _ Hk), Hh,
          (VerificationFacts.eqb_neq_false _ _ Ht).
  eexists. reflexivity.
Qed.

(** [query_hunter_io] reads the answer's pattern, never its confidence. *)
Lemma query_hunter_conf_indep (h : hunter_oracle) (key domain tmpl : string)
    (conf conf' : option Z) :
  h domain = HResponse 200 (HObject (HDObject (HPStr tmpl) conf)) ->
  query_hunter_io
    (fun d => if String.eqb d domain
              then HResponse 200 (HObject (HDObject (HPStr tmpl) conf'))
              else h d) key domain
  = query_hunter_io h key domain.
Proof. intros Hh. unfold query_hunter_io. rewrite String.eqb_refl, Hh. reflexivity. Qed.

(** [resolve_pattern_result] consults Hunter.io only through
    [query_hunter_io] at the domain. *)
Lemma resolve_query_only (h h' : hunter_oracle) (key : string) (detect : regional_oracle)
    (google : pattern_oracle2) (website : website_oracle) (company domain : string) :
  query_hunter_io h' key domain = query_hunter_io h key domain ->
  resolve_pattern_result h' key detect google website company domain =
  resolve_pattern_result h key detect google website company domain.
Proof. intros Hq. unfold resolve_pattern_result. rewrite Hq. reflexivity. Qed.

(** Method 2/3 keeps the primary pattern; with no known regional table
    and no detected [us.] domain it keeps the recommended pattern too. *)
Lemma regional_step_primary (detect : regional_oracle) (company domain : string)
    (r : pattern_result) :
  primary_pattern (regional_step detect company domain r) = primary_pattern r.
Proof.
  unfold regional_step.
  destruct (get_known_regional_patterns domain) as [| [fr fp] kr].
  - destruct (regional_domains r); [| reflexivity].
    destruct (detect company domain) as [| x ds]; [reflexivity|].
    destruct (assoc ("us." ++ domain) (x :: ds)); reflexivity.
  - destruct (assoc ("us." ++ domain) ((fr, fp) :: kr)); [reflexivity|].
    destruct (assoc ("usa." ++ domain) ((fr, fp) :: kr)); reflexivity.
Qed.

Lemma regional_step_recommended (detect : regional_oracle) (company domain : string)
    (r : pattern_result) :
  get_known_regional_patterns domain = [] ->
  assoc ("us." ++ domain) (detect company domain) = None ->
  recommended_pattern (regional_step detect company domain r) = recommended_pattern r.
Proof.
  intros Hk Hus. unfold regional_step. rewrite Hk.
  destruct (regional_domains r); [| reflexivity].
  destruct (detect company domain) as [| x ds]; [reflexivity|].
  rewrite Hus. reflexivity.
Qed.

(** The later steps change nothing once the primary pattern is not
    [first.last]. *)
Lemma known_pattern_step_keep (domain : string) (r : pattern_result) :
  primary_pattern r <> "first.last" -> known_pattern_step domain r = r.
Proof.
  intros H. unfold known_pattern_step.
  rewrite (VerificationFacts.eqb_neq_false _ _ H). reflexivity.
Qed.

Lemma search_step_keep (found : option string) (r : pattern_result) :
  primary_pattern r <> "first.last" -> search_step found r = r.
Proof.
  intros H. unfold search_step.
  rewrite (VerificationFacts.eqb_neq_false _ _ H). reflexivity.
Qed.

(** A Hunter.io pattern other than [first.last] stays the primary pattern,
    and the recommended one when no regional domain applies. *)
Lemma resolve_hunter_kept (h : hunter_oracle) (key : string) (detect : regional_oracle)
    (google : pattern_oracle2) (website : website_oracle) (company domain p : string) :
  query_hunter_io h key domain = Some p -> p <> "first.last" ->
  primary_pattern (resolve_pattern_result h key detect google website company domain) = p /\
  (get_known_regional_patterns domain = [] ->
   assoc ("us." ++ domain) (detect company domain) = None ->
   recommended_pattern (resolve_pattern_result h key detect google website company domain) = p).
Proof.
  intros Hq Hp. unfold resolve_pattern_result. rewrite Hq. cbn zeta.
  set (r1 := hunter_step (Some p) (mkPatternResult domain "first.last" [] domain "first.last")).
  set (r2 := regional_step detect company domain r1).
  assert (H2 : primary_pattern r2 = p) by (apply regional_step_primary).
  assert (Hn : primary_pattern r2 <> "first.last") by (rewrite H2; exact Hp).
  rewrite (known_pattern_step_keep domain r2 Hn), (search_step_keep _ r2 Hn),
          (search_step_keep _ r2 Hn).
  split; [exact H2|].
  intros Hk Hus. apply regional_step_recommended; assumption.
Qed.

End HunterFacts.

Module ExtraFacts.
Import Py Effects PatternFiller.

Lemma lower_char_at (c : ascii) : Ascii.eqb (lower_char c) "@" = Ascii.eqb c "@".
Proof. destruct c as [[] [] [] [] [] [] [] []]; reflexivity. Qed.

Lemma contains_cons (c d : ascii) (s : string) :
  contains c (String d s) = Ascii.eqb c d || contains c s.
Proof. reflexivity. Qed.

Lemma contains_app (c : ascii) (a b : string) :
  contains c (a ++ b) = contains c a || contains c b.
Proof.
  induction a as [| d a IH]; [reflexivity|].
  change (String d a ++ b) with (String d (a ++ b)).
  rewrite !contains_cons, IH. apply orb_assoc.
Qed.

Lemma contains_at_lower (s : string) : contains "@" (lower s) = contains "@" s.
Proof.
  induction s as [| d s IH]; [reflexivity|].
  change (lower (String d s)) with (String (lower_char d) (lower s)).
  rewrite !contains_cons, IH, (Ascii.eqb_sym "@" (lower_char d)), lower_char_at,
    (Ascii.eqb_sym d "@"). reflexivity.
Qed.

Lemma partition_aux_some (c : ascii) (s a b : string) :
  partition_aux c s = Some (a, b) -> s = a ++ String c b /\ contains c a = false.
Proof.
  revert a b. induction s as [| d s IH]; intros a b H; [discriminate|].
  simpl in H. destruct (Ascii.eqb d c) eqn:E.
  - injection H as <- <-. apply Ascii.eqb_eq in E. subst d. split; reflexivity.
  - destruct (partition_aux c s) as [[a' b'] |] eqn:E2; [| discriminate].
    injection H as <- <-. destruct (IH a' b' eq_refl) as [-> Hc]. split; [reflexivity|].
    rewrite contains_cons, Hc, Ascii.eqb_sym, E. reflexivity.
Qed.

Lemma partition_aux_none (c : ascii) (s : string) :
  partition_aux c s = None -> contains c s = false.
Proof.
  induction s as [| d s IH]; intros H; [reflexivity|].
  simpl in H. destruct (Ascii.eqb d c) eqn:E; [discriminate|].
  destruct (partition_aux c s) as [[a b] |]; [discriminate|].
  rewrite contains_cons, IH by reflexivity. rewrite Ascii.eqb_sym, E. reflexivity.
Qed.

(** *** Association lists *)

Lemma assoc_in {A} (q : string) (m : A) (d : list (string * A)) :
  assoc q d = Some m -> In (q, m) d.
Proof.
  induction d as [| [k v] d IH]; intros H; [discriminate|]. simpl in H.
  destruct (String.eqb q k) eqn:E.
  - apply String.eqb_eq in E. subst. injection H as ->. left. reflexivity.
  - right. apply IH, H.
Qed.

Lemma in_assoc {A} (q : string) (m : A) (d : list (string * A)) :
  List.NoDup (map fst d) -> In (q, m) d -> assoc q d = Some m.
Proof.
  induction d as [| [k v] d IH]; intros Hnd Hin; [destruct Hin|].
  simpl in Hnd. apply NoDup_cons_iff in Hnd as [Hk Hnd]. simpl.
  destruct Hin as [Heq | Hin].
  - injection Heq as -> ->. rewrite String.eqb_refl. reflexivity.
  - destruct (String.eqb q k) eqn:E.
    + apply String.eqb_eq in E. subst. exfalso. apply Hk.
      apply (in_map fst) in Hin. exact Hin.
    + apply IH; assumption.
Qed.

Lemma assoc_dict_add (k j : string) (n : nat) (d : list (string * nat)) :
  assoc j (dict_add k n d) =
  if String.eqb j k then Some (default 0 (assoc k d) + n) else assoc j d.
Proof.
  induction d as [| [k' m] d IH]; simpl.
  - destruct (String.eqb j k); reflexivity.
  - destruct (String.eqb k k') eqn:E1.
    + apply String.eqb_eq in E1. subst k'. simpl.
      destruct (String.eqb j k); reflexivity.
    + simpl. rewrite IH. destruct (String.eqb j k') eqn:E2; [| reflexivity].
      apply String.eqb_eq in E2. subst j. rewrite String.eqb_sym, E1. reflexivity.
Qed.

Lemma dict_add_keys (k : string) (n : nat) (d : list (string * nat)) :
  List.NoDup (map fst d) ->
  List.NoDup (map fst (dict_add k n d)) /\
  (forall x, In x (map fst (dict_add k n d)) <-> x = k \/ In x (map fst d)).
Proof.
  induction d as [| [k' m] d IH]; intros Hnd; simpl.
  - split; [apply List.NoDup_cons; [intros [] | apply List.NoDup_nil] | intros x; simpl; split; intros [H | []]; left; congruence].
  - simpl in Hnd. apply NoDup_cons_iff in Hnd as [Hk Hnd].
    destruct (String.eqb k k') eqn:E.
    + apply String.eqb_eq in E. subst k'. simpl.
      split; [constructor; assumption | intros x; simpl; split; [intros H; right; exact H | intros [-> | H]; [left; reflexivity | exact H]]].
    + apply String.eqb_neq in E. destruct (IH Hnd) as [Hnd' Hiff]. simpl.
      split.
      * constructor; [| exact Hnd']. intros H. apply Hiff in H as [H | H]; [congruence | contradiction].
      * intros x. rewrite Hiff. tauto.
Qed.

Lemma dict_set_assoc {A} (k j : string) (v : A) (d : list (string * A)) :
  assoc j (dict_set k v d) = if String.eqb j k then Some v else assoc j d.
Proof.
  induction d as [| [k' v'] d IH]; simpl.
  - reflexivity.
  - destruct (String.eqb k k') eqn:E1.
    + apply String.eqb_eq in E1. subst k'. simpl. destruct (String.eqb j k); reflexivity.
    + simpl. rewrite IH. destruct (String.eqb j k') eqn:E2; [| reflexivity].
      apply String.eqb_eq in E2. subst j. rewrite String.eqb_sym, E1. reflexivity.
Qed.

Lemma dict_has_set {A} (k j : string) (v : A) (d : list (string * A)) :
  dict_has j (dict_set k v d) = String.eqb j k || dict_has j d.
Proof. unfold dict_has. rewrite dict_set_assoc. destruct (String.eqb j k); reflexivity. Qed.

(** *** [max(..., key=...)] *)

Lemma max_first_in (x : string * nat) (l : list (string * nat)) :
  In (max_first x l) (x :: l).
Proof.
  revert x. induction l as [| y l IH]; intros x; simpl; [left; reflexivity|].
  destruct (Nat.ltb (snd x) (snd y)).
  - destruct (IH y) as [H | H]; [right; left; exact H | right; right; exact H].
  - destruct (IH x) as [H | H]; [left; exact H | right; right; exact H].
Qed.

Lemma max_first_ge (x : string * nat) (l : list (string * nat)) :
  forall y, In y (x :: l) -> snd y <= snd (max_first x l).
Proof.
  revert x. induction l as [| z l IH]; intros x y Hy; simpl.
  - destruct Hy as [<- | []]. lia.
  - destruct (Nat.ltb (snd x) (snd z)) eqn:E.
    + apply Nat.ltb_lt in E. destruct Hy as [<- | Hy].
      * specialize (IH z z (or_introl eq_refl)). lia.
      * apply IH. exact Hy.
    + apply Nat.ltb_ge in E. destruct Hy as [<- | [<- | Hy]].
      * apply IH. left. reflexivity.
      * specialize (IH x x (or_introl eq_refl)). lia.
      * apply IH. right. exact Hy.
Qed.

(** The chosen item is the first of greatest value. *)
Lemma max_first_first (x : string * nat) (l : list (string * nat)) :
  exists pre post, x :: l = app pre (max_first x l :: post) /\
                   forall z, In z pre -> snd z < snd (max_first x l).
Proof.
  revert x. induction l as [| z l IH]; intros x; simpl.
  - exists [], []. split; [reflexivity | intros z []].
  - destruct (Nat.ltb (snd x) (snd z)) eqn:E.
    + apply Nat.ltb_lt in E. destruct (IH z) as (pre & post & Heq & Hlt).
      exists (x :: pre), post. split; [rewrite Heq; reflexivity|].
      intros w [<- | Hw]; [| exact (Hlt w Hw)].
      pose proof (max_first_ge z l z (or_introl eq_refl)). lia.
    + apply Nat.ltb_ge in E. destruct (IH x) as (pre & post & Heq & Hlt).
      destruct pre as [| w pre].
      * simpl in Heq. injection Heq as Hx Hl. exists [], (z :: l).
        split; [simpl; rewrite <- Hx; reflexivity | intros w []].
      * simpl in Heq. injection Heq as Hw Hl. subst w.
        exists (x :: z :: pre), post. split; [simpl; f_equal; f_equal; exact Hl|].
        pose proof (Hlt x (or_introl eq_refl)).
        intros w [<- | [<- | Hw]]; [lia | lia | exact (Hlt w (or_intror Hw))].
Qed.

(** *** [best_pattern] *)

Lemma counts_fold (rows : list known_row) (q : string) :
  forall acc,
  default 0 (assoc q (fold_left (fun counts r => match row_pattern r with
                                                 | Some name => dict_add name 1 counts
                                                 | None => counts
                                                 end) rows acc))
  = default 0 (assoc q acc)
    + length (List.filter (fun r => bool_decide (row_pattern r = Some q)) rows).
Proof.
  induction rows as [| r rows IH]; intros acc; cbn [fold_left List.filter length]; [lia|].
  rewrite IH. destruct (row_pattern r) as [name |] eqn:E.
  - rewrite assoc_dict_add. destruct (String.eqb q name) eqn:Eq.
    + apply String.eqb_eq in Eq. subst name. rewrite bool_decide_true by reflexivity.
      simpl. lia.
    + rewrite bool_decide_false; [lia|].
      intros H. injection H as ->. rewrite String.eqb_refl in Eq. discriminate.
  - rewrite bool_decide_false by discriminate. lia.
Qed.

Lemma counts_nodup (rows : list known_row) :
  forall acc, List.NoDup (map fst acc) ->
  List.NoDup (map fst (fold_left (fun counts r => match row_pattern r with
                                                  | Some name => dict_add name 1 counts
                                                  | None => counts
                                                  end) rows acc)).
Proof.
  induction rows as [| r rows IH]; intros acc H; [exact H|]. simpl. apply IH.
  destruct (row_pattern r) as [name |]; [apply dict_add_keys; exact H | exact H].
Qed.

Lemma row_pattern_key (r : known_row) (p : string) :
  row_pattern r = Some p -> In p pattern_keys.
Proof.
  unfold row_pattern. destruct (negb _); [discriminate|].
  destruct (split_email _) as [local dom]. intros H. apply find_some in H as [H _]. exact H.
Qed.

Lemma counted_pattern_key (rows : list known_row) (p : string) :
  1 <= length (List.filter (fun r => bool_decide (row_pattern r = Some p)) rows) ->
  In p pattern_keys.
Proof.
  induction rows as [| r rows IH]; cbn [List.filter length]; intros H; [lia|].
  destruct (bool_decide (row_pattern r = Some p)) eqn:E.
  - apply bool_decide_eq_true in E. exact (row_pattern_key r p E).
  - apply IH, H.
Qed.

(** *** [standardize_column_names] *)

Lemma rename_if_present (old new : string) (cols : list string) :
  (if existsb (String.eqb old) cols then rename_column old new cols else cols)
  = rename_column old new cols.
Proof.
  destruct (existsb (String.eqb old) cols) eqn:E; [reflexivity|].
  unfold rename_column. induction cols as [| c cols IH]; [reflexivity|].
  simpl in E. apply orb_false_iff in E as [E1 E2]. simpl.
  rewrite String.eqb_sym, E1. f_equal. apply IH, E2.
Qed.

Lemma rename_stage_map (m : list (string * string)) : forall cols,
  fold_left (fun cols '(old_name, new_name) =>
               if existsb (String.eqb old_name) cols
               then rename_column old_name new_name cols else cols) m cols
  = map (fun c => fold_left (fun c '(o, n) => if String.eqb c o then n else c) m c) cols.
Proof.
  induction m as [| [o n] m IH]; intros cols; simpl.
  - symmetry. apply map_id.
  - rewrite rename_if_present, IH. unfold rename_column. rewrite map_map. reflexivity.
Qed.

Lemma rename_chain_id (c : string) :
  assoc c column_mapping = None ->
  fold_left (fun c '(o, n) => if String.eqb c o then n else c) column_mapping c = c.
Proof.
  intros H. cbn [assoc column_mapping] in H.
  repeat (destruct (String.eqb c _) eqn:? in H; [discriminate|]).
  cbn [fold_left column_mapping].
  repeat match goal with
         | E : String.eqb c ?k = false |- context [String.eqb c ?k] => rewrite E; cbv beta iota
         end.
  reflexivity.
Qed.

Lemma rename_chain_not_key (c : string) :
  assoc (fold_left (fun c '(o, n) => if String.eqb c o then n else c) column_mapping c)
    column_mapping = None.
Proof.
  destruct (assoc c column_mapping) as [v |] eqn:E.
  - apply assoc_in in E.
    repeat (destruct E as [E | E]; [injection E as <- <-; vm_compute; reflexivity |]).
    destruct E.
  - rewrite (rename_chain_id c E). exact E.
Qed.

Lemma append_new_prefix (xs : list string) : forall l,
  exists suf, RobustFiller.append_new l xs = app l suf /\
              (forall x, In x suf -> In x xs) /\
              (forall x, In x xs -> In x (app l suf)).
Proof.
  intros l.
  assert (Hadd : forall x, In x xs -> In x (RobustFiller.append_new l xs))
    by (intros x Hx; apply RobustFacts.append_new_adds, Hx).
  revert l Hadd. unfold RobustFiller.append_new.
  induction xs as [| y xs IH]; intros l Hadd; simpl.
  - exists []. rewrite app_nil_r. split; [reflexivity | split; intros x []].
  - simpl in Hadd. destruct (existsb (String.eqb y) l).
    + destruct (IH l (fun x Hx => Hadd x (or_intror Hx))) as (suf & Heq & Hin & _).
      exists suf. rewrite <- Heq.
      split; [reflexivity | split; [intros x Hx; right; exact (Hin x Hx) | exact Hadd]].
    + destruct (IH (app l [y]) (fun x Hx => Hadd x (or_intror Hx))) as (suf & Heq & Hin & _).
      exists (y :: suf). rewrite <- app_assoc in Heq. simpl in Heq. rewrite <- Heq.
      split; [reflexivity|]. split; [| exact Hadd].
      intros x [<- | Hx]; [left; reflexivity | right; exact (Hin x Hx)].
Qed.

Lemma standardize_shape (cols : list string) :
  exists suf,
    standardize_column_names cols =
      app (map (fun c => fold_left (fun c '(o, n) => if String.eqb c o then n else c)
                           column_mapping c) cols) suf
    /\ (forall x, In x suf -> In x required_columns)
    /\ (forall x, In x required_columns -> In x (standardize_column_names cols)).
Proof.
  unfold standardize_column_names. rewrite rename_stage_map.
  destruct (append_new_prefix required_columns
              (map (fun c => fold_left (fun c '(o, n) => if String.eqb c o then n else c)
                               column_mapping c) cols)) as (suf & Heq & Hs & Hr).
  exists suf. split; [exact Heq | split; [exact Hs|]].
  unfold RobustFiller.append_new in Heq. rewrite Heq. exact Hr.
Qed.

Lemma standardized_not_key (cols : list string) (x : string) :
  In x (standardize_column_names cols) -> assoc x column_mapping = None.
Proof.
  destruct (standardize_shape cols) as (suf & -> & Hsuf & _). intros H.
  apply in_app_or in H as [H | H].
  - apply in_map_iff in H as (c & <- & _). apply rename_chain_not_key.
  - apply Hsuf in H. repeat (destruct H as [<- | H]; [reflexivity|]). destruct H.
Qed.

(** *** [patterns_by_domain] and [domain_mappings] *)

Lemma build_domain_tables_ok (vp : list (string * pattern_result)) :
  forall t, tables_ok t ->
  tables_ok (fold_left (fun '(patterns_by_domain, domain_mappings) '(domain, result) =>
               let rd := recommended_domain result in
               let rp := recommended_pattern result in
               let patterns_by_domain := dict_set rd rp patterns_by_domain in
               if negb (String.eqb rd domain)
               then (patterns_by_domain, dict_set domain rd domain_mappings)
               else (dict_set domain rp patterns_by_domain, domain_mappings)) vp t).
Proof.
  induction vp as [| [domain result] vp IH]; intros [pbd dm] Hok; simpl; [exact Hok|].
  apply IH. destruct (negb _); unfold tables_ok in *; simpl in *; intros d d' H.
  - rewrite dict_set_assoc in H. rewrite dict_has_set.
    destruct (String.eqb d domain).
    + injection H as <-. rewrite String.eqb_refl. reflexivity.
    + rewrite (Hok d d' H). apply orb_true_r.
  - rewrite !dict_has_set, (Hok d d' H), !orb_true_r. reflexivity.
Qed.

Lemma fold_tables (f : list (string * string) * list (string * string) -> string ->
                       list (string * string) * list (string * string))
    (Hf : forall t d, tables_ok t ->
          tables_ok (f t d) /\ snd (f t d) = snd t /\
          (forall x, dict_has x (fst t) = true -> dict_has x (fst (f t d)) = true) /\
          (d <> "" -> dict_has d (fst (f t d)) = true \/ dict_has d (snd (f t d)) = true)) :
  forall l t, tables_ok t ->
  let t' := fold_left f l t in
  tables_ok t' /\
  forall d, In d l -> d <> "" -> dict_has d (fst t') = true \/ dict_has d (snd t') = true.
Proof.
  induction l as [| d0 l IH]; intros t Hok; simpl; [split; [exact Hok | intros d []]|].
  destruct (Hf t d0 Hok) as (Hok1 & Hsnd & Hmono & Hd0).
  assert (Hgen : forall t1, tables_ok t1 ->
            snd (fold_left f l t1) = snd t1 /\
            forall x, dict_has x (fst t1) = true -> dict_has x (fst (fold_left f l t1)) = true).
  { clear IH Hok1 Hsnd Hmono Hd0. induction l as [| d1 l IH1]; intros t1 Hok1; simpl.
    - split; [reflexivity | intros x H; exact H].
    - destruct (Hf t1 d1 Hok1) as (Hok2 & Hsnd2 & Hmono2 & _).
      destruct (IH1 _ Hok2) as [Hs Hm]. split; [rewrite Hs; exact Hsnd2|].
      intros x H. apply Hm, Hmono2, H. }
  destruct (IH (f t d0) Hok1) as [Hok' Hl]. split; [exact Hok'|].
  intros d [<- | Hd] Hne; [| exact (Hl d Hd Hne)].
  destruct (Hgen _ Hok1) as [Hs Hm].
  destruct (Hd0 Hne) as [H | H]; [left; apply Hm, H | right; rewrite Hs; exact H].
Qed.

Lemma in_omap_id (d : string) (l : list (option string)) :
  In (Some d) l -> In d (omap (fun d => d) l).
Proof.
  induction l as [| [x |] l IH]; intros H; [destruct H| |]; simpl.
  - destruct H as [H | H]; [injection H as ->; left; reflexivity | right; apply IH, H].
  - destruct H as [H | H]; [discriminate | apply IH, H].
Qed.

Lemma fallback_patterns_ok (contacts : list (option string)) (known : list known_row)
    (t : list (string * string) * list (string * string)) :
  tables_ok t ->
  tables_ok (fallback_patterns contacts known t) /\
  forall d, In (Some d) contacts -> d <> "" ->
    dict_has d (fst (fallback_patterns contacts known t)) = true \/
    dict_has d (snd (fallback_patterns contacts known t)) = true.
Proof.
  intros Hok. unfold fallback_patterns.
  match goal with |- context [fold_left ?f _ _] => set (F := f) end.
  assert (Hf : forall t d, tables_ok t ->
          tables_ok (F t d) /\ snd (F t d) = snd t /\
          (forall x, dict_has x (fst t) = true -> dict_has x (fst (F t d)) = true) /\
          (d <> "" -> dict_has d (fst (F t d)) = true \/ dict_has d (snd (F t d)) = true)).
  { intros [pbd dm] d Hok1.
    destruct (negb (String.eqb d "") && negb (dict_has d pbd) && negb (dict_has d dm)) eqn:C.
    - assert (HX : exists X, F (pbd, dm) d = (dict_set d X pbd, dm)).
      { unfold F. rewrite C.
        destruct (negb (Nat.eqb _ 0)); [destruct (best_pattern _) |]; eexists; reflexivity. }
      destruct HX as [X ->]. simpl. split; [| split; [reflexivity | split]].
      + unfold tables_ok in *. simpl in *. intros d1 d' H.
        rewrite dict_has_set, (Hok1 d1 d' H). apply orb_true_r.
      + intros x H. rewrite dict_has_set, H. apply orb_true_r.
      + intros _. left. rewrite dict_has_set, String.eqb_refl. reflexivity.
    - assert (HF : F (pbd, dm) d = (pbd, dm)) by (unfold F; rewrite C; reflexivity).
      rewrite HF. simpl. split; [exact Hok1 | split; [reflexivity | split; [tauto|]]].
      intros Hne. apply String.eqb_neq in Hne. rewrite Hne in C.
      destruct (dict_has d pbd), (dict_has d dm); simpl in C; try discriminate; tauto. }
  destruct (fold_tables F Hf (unique (omap (fun d => d) contacts)) t Hok) as [H1 H2].
  split; [exact H1|]. intros d Hin Hne. apply H2; [| exact Hne].
  apply (RobustFacts.append_new_adds d _ []). apply in_omap_id, Hin.
Qed.

(** *** [verify_email_nvb] and the pattern stage of [gen] *)

Lemma str_app_assoc (a b c : string) : (a ++ b) ++ c = a ++ b ++ c.
Proof.
  induction a as [| x a IH]; [reflexivity|].
  change (String x ((a ++ b) ++ c) = String x (a ++ b ++ c)).
  rewrite IH. reflexivity.
Qed.

(** [verify_email_nvb] never raises; it answers [True] only without a key
    or with [True] cached for the address; cached answers stay. *)
Lemma verify_nvb_spec (o : nb_oracle) (key email : string) (st : state) :
  exists b st', verify_email_nvb o key email st = (Ok b, st') /\
    (b = true -> key = "" \/ verify_cache st' !! email = Some true) /\
    (forall x c, verify_cache st !! x = Some c -> verify_cache st' !! x = Some c).
Proof.
  unfold verify_email_nvb, verify_cache_get, gets, mbind, M_bind, mret, M_ret,
    try_with, nb_get, json_get_result, raise, verify_cache_put, modify.
  destruct (String.eqb key "") eqn:Ek.
  { apply String.eqb_eq in Ek. eexists _, _. split; [reflexivity|].
    split; [intros _; left; exact Ek | tauto]. }
  destruct (verify_cache st !! email) as [c |] eqn:Ec.
  { eexists _, _. split; [reflexivity|]. split; [intros ->; right; exact Ec | tauto]. }
  destruct (o email (length (nb_log st))) as [| | code body];
    [| | destruct body as [| | [| s |]]];
    eexists _, _; (split; [reflexivity|]);
    (split; [| intros x c0 Hx; cbn [verify_cache set_verify_cache log_nb];
               try (rewrite lookup_insert_ne; [exact Hx | intros ->; congruence]);
               exact Hx]);
    try discriminate;
    intros Hv; right; cbn [verify_cache set_verify_cache log_nb];
    rewrite lookup_insert_eq; rewrite Hv; reflexivity.
Qed.

Lemma try_other_patterns_spec (o : nb_oracle) (key fn ln dc : string) (ps : list string) :
  (forall p, In p ps -> PATTERN_FUNCS p <> None) ->
  forall st, exists r st', try_other_patterns o key fn ln dc ps st = (Ok r, st') /\
    (forall c, r = Some c -> (exists local, c = local ++ "@" ++ dc) /\
                             (key = "" \/ verify_cache st' !! c = Some true)) /\
    (forall x c, verify_cache st !! x = Some c -> verify_cache st' !! x = Some c).
Proof.
  intros Hps. induction ps as [| p ps IH]; intros st.
  - eexists _, _. split; [reflexivity|]. split; [discriminate | tauto].
  - assert (IH' := IH (fun q Hq => Hps q (or_intror Hq))).
    simpl. destruct (PATTERN_FUNCS p) as [f |] eqn:Ef; [| exfalso; exact (Hps p (or_introl eq_refl) Ef)].
    destruct (email_re_match (f fn ln ++ "@" ++ dc)); [| apply IH'].
    unfold mbind, M_bind, mret, M_ret.
    destruct (verify_nvb_spec o key (f fn ln ++ "@" ++ dc) st) as (b & st1 & Hv & Hb & Hk).
    rewrite Hv. destruct b.
    + eexists _, _. split; [reflexivity|]. split; [| exact Hk].
      intros c Hc. injection Hc as <-. split; [exists (f fn ln); reflexivity | exact (Hb eq_refl)].
    + destruct (IH' st1) as (r & st' & Hr & Hc & Hk').
      exists r, st'. split; [exact Hr|]. split; [exact Hc|].
      intros x c Hx. apply Hk', Hk, Hx.
Qed.

Lemma pattern_keys_funcs (p : string) : In p pattern_keys -> PATTERN_FUNCS p <> None.
Proof.
  intros H. repeat (destruct H as [<- | H]; [discriminate|]). destruct H.
Qed.

End ExtraFacts.

Module GenFacts.
Import Py Effects PatternFiller ExtraFacts.


Lemma mret_ok {A} (a : A) (st : state) : (mret a : M A) st = (Ok a, st).
Proof. reflexivity. Qed.













End GenFacts.

Module Claims.
Import Py Effects Deliverable.

(** C8: [clean_name] of [email_pattern_filler.py] maps
    ["Meinen, MS, CISSP"] to ["meinen"], ["J. Prajzner"] to ["prajzner"]
    and ["D'Alterio"] to ["dalterio"]. *)
Theorem clean_name_spec_examples :
  PatternFiller.clean_name "Meinen, MS, CISSP" = "meinen" /\
  PatternFiller.clean_name "J. Prajzner" = "prajzner" /\
  PatternFiller.clean_name "D'Alterio" = "dalterio".
Proof. vm_compute. split; [reflexivity | split; reflexivity]. Qed.

(** C10: with no verification API key, [verify_email_nvb] returns true for
    every email and [verify_email_with_retry] returns false, neither making
    a call nor changing the state; so the two disagree on every email. *)
Theorem no_api_key_verifiers_disagree :
  forall (o : nb_oracle) (n : nat) (email : string) (st : state),
    PatternFiller.verify_email_nvb o "" email st = (Ok true, st) /\
    RobustFiller.verify_email_with_retry o "" n email st = (Ok false, st) /\
    fst (PatternFiller.verify_email_nvb o "" email st)
      <> fst (RobustFiller.verify_email_with_retry o "" n email st).
Proof.
  intros o n email st.
  assert (Hr : RobustFiller.verify_email_with_retry o "" n email st = (Ok false, st)).
  { unfold RobustFiller.verify_email_with_retry. rewrite orb_true_r. reflexivity. }
  split; [reflexivity | split; [exact Hr |]].
  rewrite Hr. simpl. discriminate.
Qed.

(** C1 (counterexample): [verify_email_nvb] answers false when the
    provider reports [catchall] with HTTP 200. *)
Lemma verify_email_nvb_rejects_catchall :
  fst (PatternFiller.verify_email_nvb
         (fun _ _ => NBResponse 200 (JObject (JStr "catchall")))
         "key" "jane.doe@example.com" empty_state) = Ok false.
Proof. vm_compute. reflexivity. Qed.

(** C1 (amended): with a configured key, [verify_email_neverbounce] of
    the enhanced filler returns true exactly when the provider answers
    HTTP 200 with a [result] string that lower-cases to [valid] or
    [catchall], and false for every other response, a timeout or any
    other exception; for an uncached email, [verify_email_nvb] returns
    true exactly when the response body is an object whose [result] is
    exactly [valid], whatever the HTTP status, and false otherwise.  Both
    always return a boolean: no exception escapes. *)
Theorem verify_email_outcomes :
  forall (o : nb_oracle) (key email : string) (st : state),
    key <> "" -> email <> "" ->
    fst (EnhancedFiller.verify_email_neverbounce o key email st)
      = Ok (deliverable_enhanced (o email (length (nb_log st)))) /\
    (verify_cache st !! email = None ->
     fst (PatternFiller.verify_email_nvb o key email st)
       = Ok (deliverable_nvb (o email (length (nb_log st))))) /\
    (forall k e, exists b, fst (EnhancedFiller.verify_email_neverbounce o k e st) = Ok b) /\
    (forall k e, exists b, fst (PatternFiller.verify_email_nvb o k e st) = Ok b).
Proof.
  intros o key email st Hkey Hemail.
  split; [| split; [| split]].
  - unfold EnhancedFiller.verify_email_neverbounce.
    rewrite (VerificationFacts.eqb_neq_false _ _ Hemail),
            (VerificationFacts.eqb_neq_false _ _ Hkey).
    unfold try_with, nb_get, mbind, M_bind, mret, M_ret, raise, json_get_result, py_lower.
    simpl. destruct (o email (length (nb_log st))) as [| | c b]; simpl; try reflexivity.
    destruct (Z.eqb c 200); destruct b as [| | [| r |]]; reflexivity.
  - intros Hmiss. unfold PatternFiller.verify_email_nvb.
    rewrite (VerificationFacts.eqb_neq_false _ _ Hkey).
    unfold verify_cache_get, gets, try_with, nb_get, mbind, M_bind, mret, M_ret, raise,
      json_get_result, verify_cache_put, modify.
    simpl. rewrite Hmiss.
    destruct (o email (length (nb_log st))) as [| | c b]; simpl; try reflexivity.
    destruct b as [| | [| r |]]; simpl; try reflexivity.
    unfold deliverable_nvb. destruct (bool_decide (Some r = Some "valid")) eqn:E1;
      destruct (bool_decide (r = "valid")) eqn:E2; try reflexivity.
    + apply bool_decide_eq_true in E1. apply bool_decide_eq_false in E2. congruence.
    + apply bool_decide_eq_false in E1. apply bool_decide_eq_true in E2. subst. congruence.
  - intros k e. unfold EnhancedFiller.verify_email_neverbounce.
    destruct (String.eqb e "" || String.eqb k ""); [eexists; reflexivity |].
    unfold try_with, nb_get, mbind, M_bind, mret, M_ret, raise, json_get_result, py_lower.
    simpl. destruct (o e (length (nb_log st))) as [| | c b]; simpl; try (eexists; reflexivity).
    destruct (Z.eqb c 200); [| eexists; reflexivity].
    destruct b as [| | [| r |]]; eexists; reflexivity.
  - intros k e. unfold PatternFiller.verify_email_nvb.
    destruct (String.eqb k ""); [eexists; reflexivity |].
    unfold verify_cache_get, gets, try_with, nb_get, mbind, M_bind, mret, M_ret, raise,
      json_get_result, verify_cache_put, modify.
    simpl. destruct (verify_cache st !! e); [eexists; reflexivity |].
    destruct (o e (length (nb_log st))) as [| | c b]; simpl; try (eexists; reflexivity).
    destruct b as [| | [| r |]]; eexists; reflexivity.
Qed.

(** Witness for C1: a provider that answers [Catchall] (any case) with
    HTTP 200. *)
Lemma verify_email_outcomes_witness :
  ("key" <> "" /\ "jane.doe@example.com" <> "") /\
  fst (EnhancedFiller.verify_email_neverbounce
         (fun _ _ => NBResponse 200 (JObject (JStr "Catchall"))) "key"
         "jane.doe@example.com" empty_state) = Ok true.
Proof.
  split; [split; discriminate |].
  refine (eq_trans (proj1 (verify_email_outcomes
            (fun _ _ => NBResponse 200 (JObject (JStr "Catchall"))) "key"
            "jane.doe@example.com" empty_state _ _)) _);
    [discriminate | discriminate | vm_compute; reflexivity].
Defined.




(** C3 (counterexample): a Hunter.io answer with confidence 10 is taken:
    its pattern becomes the primary and the recommended pattern. *)
Lemma hunter_low_confidence_accepted :
  let r := fst (PatternFiller.get_verified_email_pattern
                  (fun _ => Hunter.HResponse 200
                              (Hunter.HObject (Hunter.HDObject (Hunter.HPStr "{first}{last}")
                                                               (Some 10%Z))))
                  "key" (fun _ _ => []) (fun _ _ => None) (fun _ => None) empty
                  "Acme" "acme.com") in
  PatternFiller.primary_pattern r = "firstlast" /\
  PatternFiller.recommended_pattern r = "firstlast".
Proof. vm_compute. split; reflexivity. Qed.

(** C3 (amended): with a Hunter.io key configured, for a domain whose
    [domain_company] key is not cached, an HTTP 200 answer with a non-empty
    pattern is taken whatever its confidence: [query_hunter_io] returns the
    mapped pattern [p]; the result is cached; when [p] is not [first.last]
    it is the primary pattern, and also the recommended pattern when the
    domain has no known regional table and no detected [us.] domain; and
    the same answer with any other confidence gives the same result and
    cache. *)
Theorem hunter_pattern_any_confidence :
  forall (h : Hunter.hunter_oracle) (key : string)
         (detect : PatternFiller.regional_oracle) (google : PatternFiller.pattern_oracle2)
         (website : PatternFiller.website_oracle)
         (cache : gmap string PatternFiller.pattern_result)
         (company domain tmpl : string) (conf : option Z),
    key <> "" -> tmpl <> "" ->
    h domain = Hunter.HResponse 200 (Hunter.HObject (Hunter.HDObject (Hunter.HPStr tmpl) conf)) ->
    cache !! (domain ++ "_" ++ company) = None ->
    exists p,
      PatternFiller.query_hunter_io h key domain = Some p /\
      let '(r, cache') :=
        PatternFiller.get_verified_email_pattern h key detect google website cache
          company domain in
      cache' = <[domain ++ "_" ++ company := r]> cache /\
      (p <> "first.last" ->
       PatternFiller.primary_pattern r = p /\
       (PatternFiller.get_known_regional_patterns domain = [] ->
        PatternFiller.assoc ("us." ++ domain) (detect company domain) = None ->
        PatternFiller.recommended_pattern r = p)) /\
      (forall conf' : option Z,
         PatternFiller.get_verified_email_pattern
           (fun d => if String.eqb d domain
                     then Hunter.HResponse 200
                            (Hunter.HObject (Hunter.HDObject (Hunter.HPStr tmpl) conf'))
                     else h d)
           key detect google website cache company domain = (r, cache')).
Proof.
  intros h key detect google website cache company domain tmpl conf Hk Ht Hh Hc.
  destruct (HunterFacts.query_hunter_some h key domain tmpl conf Hk Ht Hh) as [p Hq].
  exists p. split; [exact Hq|].
  unfold PatternFiller.get_verified_email_pattern at 1. rewrite Hc.
  split; [reflexivity|]. split.
  - intros Hp. exact (HunterFacts.resolve_hunter_kept h key detect google website
                        company domain p Hq Hp).
  - intros conf'. unfold PatternFiller.get_verified_email_pattern. rewrite Hc.
    rewrite (HunterFacts.resolve_query_only h _ key detect google website company domain
               (HunterFacts.query_hunter_conf_indep h key domain tmpl conf conf' Hh)).
    reflexivity.
Qed.

(** Witness for C3, at confidence 10. *)
Lemma hunter_pattern_any_confidence_witness :
  exists p,
    PatternFiller.query_hunter_io
      (fun _ => Hunter.HResponse 200
                  (Hunter.HObject (Hunter.HDObject (Hunter.HPStr "{first}{last}") (Some 10%Z))))
      "key" "acme.com" = Some p /\
    let '(r, cache') :=
      PatternFiller.get_verified_email_pattern
        (fun _ => Hunter.HResponse 200
                    (Hunter.HObject (Hunter.HDObject (Hunter.HPStr "{first}{last}") (Some 10%Z))))
        "key" (fun _ _ => []) (fun _ _ => None) (fun _ => None) empty "Acme" "acme.com" in
    cache' = <["acme.com" ++ "_" ++ "Acme" := r]> empty /\
    (p <> "first.last" ->
     PatternFiller.primary_pattern r = p /\
     (PatternFiller.get_known_regional_patterns "acme.com" = [] ->
      PatternFiller.assoc ("us." ++ "acme.com") (@nil (string * string)) = None ->
      PatternFiller.recommended_pattern r = p)) /\
    (forall conf' : option Z,
       PatternFiller.get_verified_email_pattern
         (fun d => if String.eqb d "acme.com"
                   then Hunter.HResponse 200
                          (Hunter.HObject (Hunter.HDObject (Hunter.HPStr "{first}{last}") conf'))
                   else (fun _ => Hunter.HResponse 200
                            (Hunter.HObject (Hunter.HDObject (Hunter.HPStr "{first}{last}")
                                                             (Some 10%Z)))) d)
         "key" (fun _ _ => []) (fun _ _ => None) (fun _ => None) empty "Acme" "acme.com"
       = (r, cache')).
Proof.
  exact (hunter_pattern_any_confidence
           (fun _ => Hunter.HResponse 200
                       (Hunter.HObject (Hunter.HDObject (Hunter.HPStr "{first}{last}")
                                                        (Some 10%Z))))
           "key" (fun _ _ => []) (fun _ _ => None) (fun _ => None) empty "Acme" "acme.com"
           "{first}{last}" (Some 10%Z) ltac:(discriminate) ltac:(discriminate)
           eq_refl ltac:(vm_compute; reflexivity)).
Defined.

(** C6: when the regional domains come from web detection rather than the
    curated table, a detected [uk.] domain is recorded but not selected:
    the recommended domain stays the base domain, where the spec's order
    (us, usa, then the first regional domain) selects [uk.acme.com]. *)
Theorem detected_regional_domain_not_selected :
  let r := fst (PatternFiller.get_verified_email_pattern
                  (fun _ => Hunter.HError) ""
                  (fun _ _ => [("uk.acme.com", "first.last")])
                  (fun _ _ => None) (fun _ => None) ∅ "Acme" "acme.com") in
  PatternFiller.regional_domains r = [("uk.acme.com", "first.last")] /\
  PatternFiller.recommended_domain r = "acme.com" /\
  PatternFiller.spec_recommended_domain "acme.com" (PatternFiller.regional_domains r)
    = "uk.acme.com".
Proof. vm_compute. split; [reflexivity | split; reflexivity]. Qed.

(** C9: [clean_domain] is not idempotent: ["www.www.example.com"] cleans
    to ["www.example.com"], which cleans to ["example.com"]. *)
Theorem clean_domain_not_idempotent :
  PatternFiller.clean_domain "www.www.example.com" = "www.example.com" /\
  PatternFiller.clean_domain (PatternFiller.clean_domain "www.www.example.com")
    = "example.com".
Proof. vm_compute. split; reflexivity. Qed.

(** C4 (counterexample): a verified candidate overwrites the domain's
    cached pattern, so the next contact of the same domain starts from
    ["f.last"], not from the ["first.last"] the first contact resolved. *)
Lemma first_contact_pattern_overwritten :
  let o : nb_oracle := fun e _ =>
    if String.eqb e "j.smith@acme.com" then NBResponse 200 (JObject (JStr "valid"))
    else NBResponse 200 (JObject (JStr "invalid")) in
  let run := RobustFiller.generate_and_verify_email_robust
               (fun _ => Hunter.HError) (fun _ _ => None) o "" "key"
               "John" "Smith" "Acme" "acme.com" empty_state in
  fst (RobustFiller.get_verified_email_pattern (fun _ => Hunter.HError) (fun _ _ => None)
         "" "Acme" "acme.com" empty_state) = Ok "first.last" /\
  fst run = Ok (Some "j.smith@acme.com", true, "f.last") /\
  fst (RobustFiller.get_verified_email_pattern (fun _ => Hunter.HError) (fun _ _ => None)
         "" "Acme" "acme.com" (snd run)) = Ok "f.last".
Proof. vm_compute. split; [reflexivity | split; reflexivity]. Qed.

(** C4 (amended): for a domain already in lower case without surrounding
    spaces, a cached pattern is returned by [get_verified_email_pattern]
    unchanged and without any effect; on a miss it resolves a pattern and
    caches it under the domain; [generate_and_verify_email_robust] then
    overwrites that entry with the pattern of the candidate that verifies,
    and leaves it as resolved when none verifies. *)
Theorem robust_pattern_cache_updates :
  forall (h : Hunter.hunter_oracle) (g : RobustFiller.google_oracle) (o : nb_oracle)
         (hk nk fn ln company domain : string) (st : state),
    strip (lower domain) = domain ->
    (forall p, pattern_cache st !! domain = Some p ->
       RobustFiller.get_verified_email_pattern h g hk company domain st = (Ok p, st)) /\
    exists det st1 res st',
      RobustFiller.get_verified_email_pattern h g hk company domain st = (Ok det, st1) /\
      pattern_cache st1 !! domain = Some det /\
      RobustFiller.generate_and_verify_email_robust h g o hk nk fn ln company domain st
        = (Ok res, st') /\
      pattern_cache st' =
        match res with
        | (Some _, true, p) => <[domain := p]> (pattern_cache st1)
        | _ => pattern_cache st1
        end.
Proof.
  intros h g o hk nk fn ln company domain st Hd. split.
  - intros p Hp. unfold RobustFiller.get_verified_email_pattern, pattern_cache_get,
      gets, mbind, M_bind, mret, M_ret.
    rewrite Hd, Hp. reflexivity.
  - destruct (RobustFacts.get_verified_caches h g hk company domain st)
      as (det & st1 & Hrun & Hc).
    rewrite Hd in Hc.
    destruct (RobustFacts.try_patterns_shape o nk fn ln domain det
                (RobustFiller.patterns_to_try det company) None st1)
      as (res & st' & Hloop & Hres).
    exists det, st1, res, st'. split; [exact Hrun | split; [exact Hc |]].
    split.
    + unfold RobustFiller.generate_and_verify_email_robust, mbind, M_bind.
      rewrite Hrun. exact Hloop.
    + destruct res as [[[e |] [|]] q].
      * exact (proj2 Hres).
      * exact (proj1 Hres).
      * exact (proj1 Hres).
      * exact (proj1 Hres).
Qed.

(** Witness for C4, at an uncached domain. *)
Lemma robust_pattern_cache_updates_witness :
  exists det st1 res st',
    RobustFiller.get_verified_email_pattern (fun _ => Hunter.HError) (fun _ _ => None)
      "" "Acme" "acme.com" empty_state = (Ok det, st1) /\
    pattern_cache st1 !! "acme.com" = Some det /\
    RobustFiller.generate_and_verify_email_robust (fun _ => Hunter.HError) (fun _ _ => None)
      (fun _ _ => NBTimeout) "" "key" "John" "Smith" "Acme" "acme.com" empty_state
      = (Ok res, st') /\
    pattern_cache st' =
      match res with
      | (Some _, true, p) => <[ "acme.com" := p]> (pattern_cache st1)
      | _ => pattern_cache st1
      end.
Proof.
  exact (proj2 (robust_pattern_cache_updates (fun _ => Hunter.HError) (fun _ _ => None)
                  (fun _ _ => NBTimeout) "" "key" "John" "Smith" "Acme" "acme.com"
                  empty_state ltac:(reflexivity))).
Defined.




(** C7 (counterexample): a three-word surname is not split into three
    variants; it is tried as one lower-cased variant with its spaces, so
    the second candidate tested is the second pattern, not a second
    variant of the first pattern. *)
Lemma three_word_surname_single_variant :
  PatternFiller.name_variants (PatternFiller.process_multi_part_name "de la cruz" true)
    = ["de la cruz"] /\
  nth_error
    (tested_log (snd (PatternFiller.test_multiple_email_patterns
                        (fun _ _ => NBResponse 200 (JObject (JStr "invalid")))
                        (fun _ _ _ => None) "key" [] [] "juan" "de la cruz" "acme.com"
                        empty_state))) 1
    = Some ("firstlast", "de la cruz").
Proof. vm_compute. split; reflexivity. Qed.

(** C7 (amended): for a surname with a space, a non-empty first name and a
    primary pattern that is a template key, the candidates tested are a
    prefix of the pattern-major order over the pattern priority list, all
    of it when none verifies. For exactly two whitespace-separated words
    [a] and [b] the variants are the hyphenated, concatenated and
    space-stripped forms, lower-cased, and the order has
    [(pattern i, variant j)] at position [3 i + j]; for any other number of
    words the only variant is the lower-cased stripped surname, and the
    order pairs each pattern with it. *)
Theorem multi_part_search_order :
  forall (o : nb_oracle) (sh : PatternFiller.signalhire_oracle)
         (key fn dom primary ln : string) (st : state),
    fn <> "" -> PatternFiller.PATTERN_FUNCS primary <> None ->
    contains " " (strip ln) = true ->
    let vs := PatternFiller.name_variants (PatternFiller.process_multi_part_name ln true) in
    let ps := PatternFiller.pattern_priority primary in
    match split_ws (strip ln) with
    | [a; b] =>
        vs = [lower (a ++ "-" ++ b); lower (a ++ b); lower (remove_char " " (strip ln))] /\
        (forall i j p v, nth_error ps i = Some p -> nth_error vs j = Some v ->
           nth_error (PatternFiller.search_order ps vs) (3 * i + j) = Some (p, v))
    | _ =>
        vs = [lower (strip ln)] /\
        PatternFiller.search_order ps vs = map (fun p => (p, lower (strip ln))) ps
    end /\
    exists r st' k,
      PatternFiller.pattern_loop o sh key fn dom ps vs st = (Ok r, st') /\
      tested_log st' = app (tested_log st) (firstn k (PatternFiller.search_order ps vs)) /\
      (r = PatternFiller.Exhausted ->
       tested_log st' = app (tested_log st) (PatternFiller.search_order ps vs)).
Proof.
  intros o sh key fn dom primary ln st Hfn Hprim Hsp vs ps.
  pose proof (PatternFacts.multi_part_variants ln Hsp) as Hvs. fold vs in Hvs.
  pose proof (PatternFacts.multi_part_variants_nonempty ln Hsp) as Hnv. fold vs in Hnv.
  split.
  - destruct (split_ws (strip ln)) as [| a [| b [| c l]]];
      try (split; [exact Hvs | rewrite Hvs; apply PatternFacts.search_order_single]).
    split; [exact Hvs|].
    intros i j p v Hi Hj.
    replace (3 * i + j) with (length vs * i + j) by (rewrite Hvs; reflexivity).
    exact (PatternFacts.search_order_nth ps vs i j p v Hi Hj).
  - destruct (PatternFacts.pattern_loop_logs o sh key fn dom vs ps st)
      as (r & st' & k & Hrun & Hlog & He).
    { intros p Hp. destruct (PatternFacts.pattern_priority_keys primary Hprim p Hp) as [f Hf].
      exists f. split; [exact Hf|]. intros v Hv. split; [exact (Hnv v Hv)|].
      exact (PatternFacts.pattern_funcs_nonempty p f fn v Hf Hfn (Hnv v Hv)). }
    exists r, st', k. split; [exact Hrun|]. split; [exact Hlog|].
    intros Hx. rewrite Hlog, (He Hx), firstn_all. reflexivity.
Qed.

(** Witness for C7, at the surname ["Van Dyke"]. *)
Lemma multi_part_search_order_witness :
  let vs := PatternFiller.name_variants (PatternFiller.process_multi_part_name "Van Dyke" true) in
  let ps := PatternFiller.pattern_priority "first.last" in
  contains " " (strip "Van Dyke") = true /\
  match split_ws (strip "Van Dyke") with
  | [a; b] =>
      vs = [lower (a ++ "-" ++ b); lower (a ++ b); lower (remove_char " " (strip "Van Dyke"))] /\
      (forall i j p v, nth_error ps i = Some p -> nth_error vs j = Some v ->
         nth_error (PatternFiller.search_order ps vs) (3 * i + j) = Some (p, v))
  | _ =>
      vs = [lower (strip "Van Dyke")] /\
      PatternFiller.search_order ps vs = map (fun p => (p, lower (strip "Van Dyke"))) ps
  end /\
  exists r st' k,
    PatternFiller.pattern_loop (fun _ _ => NBResponse 200 (JObject (JStr "invalid")))
      (fun _ _ _ => None) "key" "juan" "acme.com" ps vs empty_state = (Ok r, st') /\
    tested_log st' = app (tested_log empty_state) (firstn k (PatternFiller.search_order ps vs)) /\
    (r = PatternFiller.Exhausted ->
     tested_log st' = app (tested_log empty_state) (PatternFiller.search_order ps vs)).
Proof.
  split; [vm_compute; reflexivity|].
  exact (multi_part_search_order (fun _ _ => NBResponse 200 (JObject (JStr "invalid")))
           (fun _ _ _ => None) "key" "juan" "acme.com" "first.last" "Van Dyke"
           empty_state ltac:(discriminate) ltac:(discriminate)
           ltac:(vm_compute; reflexivity)).
Defined.

End Claims.


(* ================================================================= *)
(** * Further properties of the scripts *)
(* ================================================================= *)

(** ** Facts about the search scoring and [enhanced_email_filler.py] *)

Module EnhancedFacts.
Import Py Effects ExtraFacts.

Lemma fold_left_inv {A B} (P : A -> Prop) (f : A -> B -> A) (l : list B) (acc : A) :
  (forall a b, In b l -> P a -> P (f a b)) -> P acc -> P (fold_left f l acc).
Proof.
  revert acc. induction l as [| b l IH]; intros acc Hf Hacc; simpl; [exact Hacc|].
  apply IH; [intros a b' Hb'; apply Hf; right; exact Hb' | apply Hf; [left; reflexivity | exact Hacc]].
Qed.

Lemma dict_add_in (k : string) (n : nat) (d : list (string * nat)) (x : string) (v : nat) :
  In (x, v) (dict_add k n d) -> (x = k /\ n <= v) \/ In (x, v) d.
Proof.
  induction d as [| [k' m] d IH]; simpl.
  - intros [H | []]. injection H as <- <-. left; split; [reflexivity | lia].
  - destruct (String.eqb k k') eqn:E.
    + apply String.eqb_eq in E as <-. intros [H | H].
      * injection H as <- <-. left; split; [reflexivity | lia].
      * right; right; exact H.
    + intros [H | H]; [right; left; exact H|].
      destruct (IH H) as [H' | H']; [left; exact H' | right; right; exact H'].
Qed.

(** The score entries of the robust search: a pattern of [K] with a
    positive score. *)
Lemma score_page_inv (K : list string) (re : RobustFiller.re_searcher) (c : string)
    (pis : list (string * list string)) :
  (forall p is, In (p, is) pis -> In p K) ->
  forall scores, (forall e, In e scores -> In (fst e) K /\ 0 < snd e) ->
  forall e, In e (RobustFiller.score_page re c pis scores) -> In (fst e) K /\ 0 < snd e.
Proof.
  induction pis as [| [p is] pis IH]; intros HK scores Hs e He; simpl in He; [exact (Hs e He)|].
  destruct (RobustFiller.pattern_score re c is) as [score |]; [| exact (Hs e He)].
  revert e He. apply IH; [intros p' is' H; apply (HK p' is'); right; exact H|].
  destruct (Nat.ltb 0 score) eqn:El; [| exact Hs].
  intros [x v] Hx. destruct (dict_add_in p score scores x v Hx) as [[-> Hle] | Hin].
  - split; [apply (HK p is); left; reflexivity | apply Nat.ltb_lt in El; simpl; lia].
  - exact (Hs _ Hin).
Qed.

Lemma robust_search_loop_inv (re : RobustFiller.re_searcher) (g : page_oracle)
    (domain : string) (qs : list string) :
  forall scores,
  (forall e, In e scores -> In (fst e) (map fst (RobustFiller.pattern_indicators domain)) /\ 0 < snd e) ->
  forall e, In e (RobustFiller.search_loop re g domain qs scores) ->
  In (fst e) (map fst (RobustFiller.pattern_indicators domain)) /\ 0 < snd e.
Proof.
  induction qs as [| q qs IH]; intros scores Hs; cbn [RobustFiller.search_loop]; [exact Hs|].
  apply IH. destruct (g q) as [| | status text]; try exact Hs.
  destruct (Z.eqb status 200); [| exact Hs].
  apply score_page_inv; [| exact Hs].
  intros p is H. apply (in_map fst) in H. exact H.
Qed.

(** The scores of one page in the enhanced search. *)
Lemma score_content_inv (content : string) :
  forall e, In e (EnhancedFiller.score_content content) ->
  In (fst e) (map fst EnhancedFiller.pattern_indicators) /\ 0 < snd e.
Proof.
  unfold EnhancedFiller.score_content.
  apply fold_left_inv; [| intros e []].
  intros acc [p is] Hb Hacc. cbv beta iota.
  destruct (Nat.ltb 0 _) eqn:El; [| exact Hacc].
  intros e He. apply in_app_or in He as [He | [<- | []]]; [exact (Hacc e He)|].
  split; [apply (in_map fst) in Hb; exact Hb | apply Nat.ltb_lt, El].
Qed.

Lemma enh_search_loop_spec (g : page_oracle) (qs : list string) :
  match EnhancedFiller.search_loop g qs with
  | Some p => exists pre post q text n, qs = app pre (q :: post) /\
      (forall q' status text', In q' pre -> g q' = PResponse status text' -> status = 200%Z ->
         EnhancedFiller.score_content (lower text') = []) /\
      g q = PResponse 200%Z text /\
      In p (map fst EnhancedFiller.pattern_indicators) /\ 0 < n /\
      (exists pre post, EnhancedFiller.score_content (lower text) = app pre ((p, n) :: post) /\
                        forall z, In z pre -> snd z < n) /\
      (forall z, In z (EnhancedFiller.score_content (lower text)) -> snd z <= n)
  | None => forall q status text, In q qs -> g q = PResponse status text -> status = 200%Z ->
      EnhancedFiller.score_content (lower text) = []
  end.
Proof.
  induction qs as [| q qs IH]; simpl; [intros q status text []|].
  assert (Hstep : (forall status text, g q = PResponse status text -> status = 200%Z ->
                     EnhancedFiller.score_content (lower text) = []) ->
                  match EnhancedFiller.search_loop g qs with
                  | Some p => exists pre post q0 text n, q :: qs = app pre (q0 :: post) /\
                      (forall q' status text', In q' pre -> g q' = PResponse status text' ->
                         status = 200%Z -> EnhancedFiller.score_content (lower text') = []) /\
                      g q0 = PResponse 200%Z text /\
                      In p (map fst EnhancedFiller.pattern_indicators) /\ 0 < n /\
                      (exists pre post, EnhancedFiller.score_content (lower text) =
                                        app pre ((p, n) :: post) /\
                                        forall z, In z pre -> snd z < n) /\
                      (forall z, In z (EnhancedFiller.score_content (lower text)) -> snd z <= n)
                  | None => forall q0 status text, In q0 (q :: qs) ->
                      g q0 = PResponse status text -> status = 200%Z ->
                      EnhancedFiller.score_content (lower text) = []
                  end).
  { intros Hq. destruct (EnhancedFiller.search_loop g qs) as [p |].
    - destruct IH as (pre & post & q0 & text & n & Hqs & Hpre & IH).
      exists (q :: pre), post, q0, text, n. split; [rewrite Hqs; reflexivity|].
      split; [| exact IH].
      intros q' status text' [<- | Hq'] Hg Hs; [exact (Hq status text' Hg Hs) | exact (Hpre q' status text' Hq' Hg Hs)].
    - intros q0 status text [<- | Hq0] Hg Hs; [exact (Hq status text Hg Hs) | exact (IH q0 status text Hq0 Hg Hs)]. }
  destruct (g q) as [| | status text] eqn:Eg.
  1,2: apply Hstep; intros status text Hg; discriminate Hg.
  destruct (Z.eqb status 200) eqn:Es.
  - apply Z.eqb_eq in Es as ->.
    destruct (EnhancedFiller.score_content (lower text)) as [| x l] eqn:Esc.
    + apply Hstep. intros status' text' Hg _. injection Hg as _ <-. exact Esc.
    + pose proof (max_first_in x l) as Hin. pose proof (max_first_ge x l) as Hge.
      destruct (max_first_first x l) as (pre & post & Hpp & Hlt).
      destruct (max_first x l) as [p n]. simpl.
      assert (Hinv := score_content_inv (lower text) (p, n)). rewrite Esc in Hinv.
      destruct (Hinv Hin) as [Hk Hn].
      exists [], qs, q, text, n. split; [reflexivity|]. split; [intros q' _ _ []|].
      split; [exact Eg|].
      split; [exact Hk|]. split; [exact Hn|]. rewrite Esc.
      split; [exists pre, post; split; [exact Hpp | exact Hlt] | exact Hge].
  - apply Hstep. intros status' text' Hg Hs. injection Hg as -> _. subst. discriminate.
Qed.

Lemma nvb_enh_spec (o : nb_oracle) (key email : string) (st : state) :
  exists b st', EnhancedFiller.verify_email_neverbounce o key email st = (Ok b, st') /\
    pattern_cache st' = pattern_cache st /\ verify_cache st' = verify_cache st /\
    (nb_log st' = nb_log st \/ nb_log st' = app (nb_log st) [email]) /\
    (b = true -> email <> "" /\ key <> "" /\ nb_log st' = app (nb_log st) [email]).
Proof.
  unfold EnhancedFiller.verify_email_neverbounce, mbind, M_bind, mret, M_ret, try_with,
    nb_get, json_get_result, py_lower, raise.
  destruct (String.eqb email "") eqn:Ee.
  { eexists _, _. split; [reflexivity|]. split; [reflexivity|]. split; [reflexivity|].
    split; [left; reflexivity | discriminate]. }
  destruct (String.eqb key "") eqn:Ek.
  { eexists _, _. split; [reflexivity|]. split; [reflexivity|]. split; [reflexivity|].
    split; [left; reflexivity | discriminate]. }
  cbn [orb].
  destruct (o email (length (nb_log st))) as [| | code body];
    [| | destruct (Z.eqb code 200); [destruct body as [| | [| s |]] |]];
    eexists _, _; (split; [reflexivity|]); cbn [pattern_cache verify_cache nb_log log_nb];
    (split; [reflexivity|]); (split; [reflexivity|]); (split; [right; reflexivity|]);
    intros _; (split; [apply String.eqb_neq; exact Ee|]);
    (split; [apply String.eqb_neq; exact Ek | reflexivity]).
Qed.

Lemma pattern_funcs_total (p f l : string) (fn : string -> string -> option string) :
  RobustFiller.PATTERN_FUNCS p = Some fn -> f <> "" -> l <> "" -> exists lp, fn f l = Some lp.
Proof.
  intros Hp Hf Hl. destruct f as [| cf f]; [congruence|]. destruct l as [| cl l]; [congruence|].
  unfold RobustFiller.PATTERN_FUNCS in Hp.
  repeat match type of Hp with
  | (if ?c then _ else _) = _ => destruct c
  end; try discriminate; injection Hp as <-; eexists; reflexivity.
Qed.

Lemma local_at_nonempty (local domain : string) : local ++ "@" ++ domain <> "".
Proof. destruct local; discriminate. Qed.

Lemma gen_email_spec (first_name last_name domain pattern : string) :
  exists r, EnhancedFiller.generate_email_with_pattern first_name last_name domain pattern = Ok r /\
    (r = None <-> EnhancedFiller.clean_name first_name = "" \/
                  EnhancedFiller.clean_name last_name = "" \/ domain = "" \/
                  EnhancedFiller.PATTERN_FUNCS pattern = None) /\
    (forall e, r = Some e -> exists local, e = local ++ "@" ++ domain).
Proof.
  unfold EnhancedFiller.generate_email_with_pattern. cbv zeta.
  destruct (String.eqb (EnhancedFiller.clean_name first_name) "") eqn:E1.
  { exists None. split; [reflexivity|].
    split; [split; [intros _; left; apply String.eqb_eq, E1 | reflexivity] | discriminate]. }
  destruct (String.eqb (EnhancedFiller.clean_name last_name) "") eqn:E2.
  { exists None. split; [reflexivity|].
    split; [split; [intros _; right; left; apply String.eqb_eq, E2 | reflexivity] | discriminate]. }
  destruct (String.eqb domain "") eqn:E3.
  { exists None. split; [reflexivity|].
    split; [split; [intros _; right; right; left; apply String.eqb_eq, E3 | reflexivity] | discriminate]. }
  cbn [orb].
  assert (Hnot : ~ (EnhancedFiller.clean_name first_name = "" \/
                    EnhancedFiller.clean_name last_name = "" \/ domain = "")).
  { intros [H | [H | H]]; apply String.eqb_eq in H; congruence. }
  destruct (Nat.eqb (String.length (EnhancedFiller.clean_name last_name)) 1 &&
            existsb (String.eqb pattern) ["firstl"; "f.last"]) eqn:Ea.
  - eexists. split; [reflexivity|]. split.
    + split; [discriminate|]. intros [H | [H | [H | H]]]; try (exfalso; tauto).
      apply andb_true_iff in Ea as [_ Ea]. apply existsb_exists in Ea as [x [Hx Hpx]].
      apply String.eqb_eq in Hpx as <-. destruct Hx as [<- | [<- | []]]; discriminate H.
    + intros e He. injection He as <-. eexists; reflexivity.
  - cbv beta iota.
    destruct (EnhancedFiller.PATTERN_FUNCS pattern) as [f |] eqn:Ep.
    + destruct (pattern_funcs_total pattern _ _ f Ep
                  (proj1 (String.eqb_neq _ _) E1) (proj1 (String.eqb_neq _ _) E2)) as [lp Hlp].
      rewrite Hlp. eexists. split; [reflexivity|]. split.
      * split; [discriminate|]. intros [H | [H | [H | H]]]; try (exfalso; tauto). congruence.
      * intros e He. injection He as <-. eexists; reflexivity.
    + exists None. split; [reflexivity|].
      split; [split; [intros _; right; right; right; reflexivity | reflexivity] | discriminate].
Qed.

Lemma hunter_to_pattern_key (p : string) :
  RobustFiller.PATTERN_FUNCS (RobustFiller.hunter_to_pattern p) <> None.
Proof.
  unfold RobustFiller.hunter_to_pattern. cbn [RobustFiller.assoc].
  repeat match goal with |- context [String.eqb p ?q] => destruct (String.eqb p q) end;
    discriminate.
Qed.

Lemma enh_hunter_spec (h : Hunter.hunter_oracle) (key domain : string) (st : state) :
  exists r st', EnhancedFiller.get_hunter_email_pattern h key domain st = (Ok r, st') /\
    pattern_cache st' = pattern_cache st /\ nb_log st' = nb_log st /\
    (forall p, r = Some p -> RobustFiller.PATTERN_FUNCS p <> None).
Proof.
  unfold EnhancedFiller.get_hunter_email_pattern.
  destruct (String.eqb key "").
  { eexists _, _. split; [reflexivity|]. split; [reflexivity|]. split; [reflexivity | discriminate]. }
  unfold RobustFiller.hunter_lookup, try_with, modify, mbind, M_bind, raise, mret, M_ret.
  destruct (h domain) as [| | status body];
    [| | destruct (Z.eqb status 200);
         [destruct body as [| | [| | pat conf]]; [| | | | destruct pat as [| | p]; [| | destruct (String.eqb p "")]] |]];
    eexists _, _; (split; [reflexivity|]); cbn [pattern_cache nb_log log_lookup];
    (split; [reflexivity|]); (split; [reflexivity|]);
    intros q Hq; try discriminate; injection Hq as <-; apply hunter_to_pattern_key.
Qed.

Lemma known_patterns_first_last (d p : string) :
  RobustFiller.assoc d EnhancedFiller.KNOWN_PATTERNS = Some p -> p = "first.last".
Proof.
  unfold EnhancedFiller.KNOWN_PATTERNS. cbn [RobustFiller.assoc].
  repeat match goal with |- context [String.eqb d ?q] => destruct (String.eqb d q) end;
    congruence.
Qed.

Lemma enh_google_key (g : page_oracle) (company domain p : string) :
  EnhancedFiller.search_google_for_email_pattern g company domain = Some p ->
  RobustFiller.PATTERN_FUNCS p <> None.
Proof.
  intros Hs. pose proof (enh_search_loop_spec g (EnhancedFiller.search_queries company domain)) as H.
  unfold EnhancedFiller.search_google_for_email_pattern in Hs. rewrite Hs in H.
  destruct H as (pre & post & q & text & n & _ & _ & _ & Hk & _).
  cbn in Hk. repeat (destruct Hk as [<- | Hk]; [discriminate|]). destruct Hk.
Qed.

Lemma enh_get_verified_spec (h : Hunter.hunter_oracle) (g : page_oracle)
    (key company domain : string) (st : state) :
  exists p st', EnhancedFiller.get_verified_email_pattern h g key company domain st = (Ok p, st') /\
    pattern_cache st' !! strip (lower domain) = Some p /\
    (forall k, k <> strip (lower domain) -> pattern_cache st' !! k = pattern_cache st !! k) /\
    nb_log st' = nb_log st /\
    ((forall k q, pattern_cache st !! k = Some q -> RobustFiller.PATTERN_FUNCS q <> None) ->
     RobustFiller.PATTERN_FUNCS p <> None).
Proof.
  unfold EnhancedFiller.get_verified_email_pattern. cbv zeta.
  set (d := strip (lower domain)).
  unfold pattern_cache_get, gets, mbind, M_bind, mret, M_ret.
  destruct (pattern_cache st !! d) as [p |] eqn:Ec.
  { exists p, st. split; [reflexivity|]. split; [exact Ec|].
    split; [reflexivity|]. split; [reflexivity|]. intros Hok. exact (Hok d p Ec). }
  unfold pattern_cache_put, modify.
  destruct (RobustFiller.assoc d EnhancedFiller.KNOWN_PATTERNS) as [p |] eqn:Ek.
  { eexists _, _. split; [reflexivity|]. cbn [pattern_cache set_pattern_cache nb_log].
    split; [apply lookup_insert_eq|]. split; [intros k Hk; apply lookup_insert_ne; congruence|].
    split; [reflexivity|]. intros _. rewrite (known_patterns_first_last d p Ek). discriminate. }
  destruct (enh_hunter_spec h key d st) as (r & st1 & Hr & Hpc & Hlog & Hkey).
  rewrite Hr. unfold EnhancedFiller.truthy.
  assert (Hg := enh_google_key g company d).
  destruct r as [p |]; [destruct (String.eqb p "") |].
  2: { eexists _, _. split; [reflexivity|]. cbn [pattern_cache set_pattern_cache nb_log default].
       split; [apply lookup_insert_eq|].
       split; [intros k Hk; rewrite lookup_insert_ne, Hpc; [reflexivity | congruence]|].
       split; [exact Hlog|]. intros _. exact (Hkey p eq_refl). }
  all: cbv beta iota.
  all: destruct (EnhancedFiller.search_google_for_email_pattern g company d) as [p' |] eqn:Es;
       [destruct (String.eqb p' "") |]; cbv beta iota;
       eexists _, _; (split; [reflexivity|]); cbn [pattern_cache set_pattern_cache nb_log default];
       (split; [apply lookup_insert_eq|]);
       (split; [intros k Hk; rewrite lookup_insert_ne, Hpc; [reflexivity | congruence]|]);
       (split; [exact Hlog|]); intros _;
       first [exact (Hg p' eq_refl) | discriminate].
Qed.

Lemma try_alternatives_spec (o : nb_oracle) (nk fn ln domain pattern : string) (alts : list string) :
  forall st, exists r st',
    EnhancedFiller.try_alternatives o nk fn ln domain pattern alts st = (Ok r, st') /\
    pattern_cache st' = pattern_cache st /\ (exists suf, nb_log st' = app (nb_log st) suf) /\
    (forall ap ae, r = Some (ap, ae) ->
       EnhancedFiller.generate_email_with_pattern fn ln domain ap = Ok (Some ae) /\
       nk <> "" /\ In ae (nb_log st')).
Proof.
  induction alts as [| a alts IH]; intros st; simpl.
  { eexists _, _. split; [reflexivity|]. split; [reflexivity|].
    split; [exists []; rewrite app_nil_r; reflexivity | discriminate]. }
  destruct (String.eqb a pattern); [apply IH|].
  destruct (gen_email_spec fn ln domain a) as (r & Hr & _ & _).
  unfold EnhancedFiller.lift_exc, mbind, M_bind, mret, M_ret. rewrite Hr.
  unfold EnhancedFiller.truthy.
  destruct r as [e |]; [destruct (String.eqb e "") eqn:Ee |]; cbv beta iota; try apply IH.
  cbn [negb default id].
  destruct (nvb_enh_spec o nk e st) as (b & st1 & Hv & Hpc & _ & Hlog & Hb).
  rewrite Hv. destruct b.
  - destruct (Hb eq_refl) as (_ & Hk & Hl).
    eexists _, _. split; [reflexivity|]. split; [exact Hpc|].
    split; [exists [e]; exact Hl|].
    intros ap ae H. injection H as <- <-. split; [exact Hr|]. split; [exact Hk|].
    rewrite Hl. apply in_or_app. right; left; reflexivity.
  - destruct (IH st1) as (r & st' & Hr' & Hpc' & [suf Hsuf] & Hs).
    exists r, st'. split; [exact Hr'|]. split; [congruence|].
    split; [| exact Hs].
    destruct Hlog as [Hl | Hl]; rewrite Hsuf, Hl;
      [exists suf; reflexivity | exists (app [e] suf); rewrite <- app_assoc; reflexivity].
Qed.

Lemma pattern_funcs_total_first (p f l : string) (fn : string -> string -> option string) :
  RobustFiller.PATTERN_FUNCS p = Some fn -> f <> "" ->
  existsb (String.eqb p) ["firstl"; "f.last"; "last.first"; "l.first"] = false ->
  exists lp, fn f l = Some lp.
Proof.
  intros Hp Hf Hx. destruct f as [| cf f]; [congruence|].
  unfold RobustFiller.PATTERN_FUNCS in Hp.
  repeat match type of Hp with
  | (if String.eqb p ?q then _ else _) = _ =>
      let E := fresh "E" in
      destruct (String.eqb p q) eqn:E; [apply String.eqb_eq in E; subst p|]
  end; try discriminate Hp;
  first [discriminate Hx | injection Hp as <-; eexists; reflexivity].
Qed.

End EnhancedFacts.

Module Extras.
Import Py Effects PatternFiller ExtraFacts EnhancedFacts.

(** X1. [split_email] splits the lower-cased address at its first [@]: the
    local part has no [@] and the two parts joined by [@] give the
    lower-cased address back; an address without [@] gives the whole
    lower-cased address and an empty domain. *)
Theorem split_email_round_trip (email : string) :
  let '(local, domain) := split_email email in
  if contains "@" email
  then local ++ "@" ++ domain = lower email /\ contains "@" local = false
  else local = lower email /\ domain = "".
Proof.
  unfold split_email, partition. rewrite <- contains_at_lower.
  destruct (partition_aux "@" (lower email)) as [[a b] |] eqn:E.
  - apply partition_aux_some in E as [E Hc]. rewrite E, contains_app, contains_cons.
    simpl. rewrite orb_true_r. split; [reflexivity | exact Hc].
  - apply partition_aux_none in E. rewrite E. split; reflexivity.
Qed.

(** X2. [best_pattern] returns the pattern counted for the most rows (a
    key of [PATTERN_FUNCS]) when it is counted for at least two rows, and
    [None] exactly when every pattern is counted for fewer than two. *)
Theorem best_pattern_most_frequent (rows : list known_row) :
  let cnt q := length (List.filter (fun r => bool_decide (row_pattern r = Some q)) rows) in
  match best_pattern rows with
  | Some p => In p pattern_keys /\ 2 <= cnt p /\ forall q, cnt q <= cnt p
  | None => forall q, cnt q < 2
  end.
Proof.
  intros cnt. unfold best_pattern.
  match goal with |- context [fold_left ?f rows []] =>
    assert (Hc : forall q, cnt q = default 0 (assoc q (fold_left f rows [])))
      by (intros q; unfold cnt; rewrite counts_fold; reflexivity);
    assert (Hnd : List.NoDup (map fst (fold_left f rows [])))
      by exact (counts_nodup rows [] (List.NoDup_nil _));
    destruct (fold_left f rows []) as [| x l] eqn:E
  end.
  - intros q. rewrite Hc. simpl. lia.
  - destruct (max_first x l) as [mc freq] eqn:Em.
    assert (Hin : In (mc, freq) (x :: l)) by (rewrite <- Em; apply max_first_in).
    assert (Hge : forall q, cnt q <= freq).
    { intros q. rewrite Hc.
      destruct (assoc q (x :: l)) as [m |] eqn:Eq; simpl; [| lia].
      apply assoc_in in Eq. pose proof (max_first_ge x l _ Eq) as H.
      rewrite Em in H. exact H. }
    assert (Hp : cnt mc = freq).
    { rewrite Hc, (in_assoc _ _ _ Hnd Hin). reflexivity. }
    destruct (Nat.leb 2 freq) eqn:Ef.
    + apply Nat.leb_le in Ef. split; [| split; [lia | intros q; rewrite Hp; apply Hge]].
      apply (counted_pattern_key rows mc). unfold cnt in Hp. lia.
    + apply Nat.leb_gt in Ef. intros q. specialize (Hge q). lia.
Qed.

(** X3. After [standardize_column_names] the five required columns are
    present and no source label of the mapping (["First"], ["Phone"], ...)
    is left. *)
Theorem standardize_column_names_required (cols : list string) :
  (forall c, In c required_columns -> In c (standardize_column_names cols)) /\
  (forall old new, In (old, new) column_mapping -> ~ In old (standardize_column_names cols)).
Proof.
  split.
  - intros c Hc. destruct (standardize_shape cols) as (suf & _ & _ & Hr). exact (Hr c Hc).
  - intros old new Hm Hin. apply standardized_not_key in Hin.
    repeat (destruct Hm as [Hm | Hm]; [injection Hm as <- <-; discriminate Hin|]).
    destruct Hm.
Qed.

(** X4. A column whose label is not a source label of the mapping keeps
    its label and its position in [standardize_column_names]. *)
Theorem standardize_column_names_keeps (cols : list string) (i : nat) (c : string) :
  nth_error cols i = Some c -> assoc c column_mapping = None ->
  nth_error (standardize_column_names cols) i = Some c.
Proof.
  intros Hi Hc. destruct (standardize_shape cols) as (suf & -> & _ & _).
  rewrite nth_error_app1 by (rewrite length_map; apply nth_error_Some; congruence).
  rewrite nth_error_map, Hi. cbn [option_map]. rewrite (rename_chain_id c Hc). reflexivity.
Qed.

Lemma standardize_column_names_keeps_witness :
  (nth_error ["First"; "Title"; "Phone"] 1 = Some "Title" /\
   assoc "Title" column_mapping = None) /\
  nth_error (standardize_column_names ["First"; "Title"; "Phone"]) 1 = Some "Title".
Proof.
  split; [split; reflexivity|].
  apply (standardize_column_names_keeps ["First"; "Title"; "Phone"] 1 "Title");
    reflexivity.
Defined.

(** X5. In the tables [fill_emails] builds, every non-empty contact domain
    resolves, through [domain_mappings] when it is mapped, to a domain
    that has a pattern in [patterns_by_domain]: the lookup of
    [test_multiple_email_patterns] never falls back to its default. *)
Theorem domain_tables_resolve (verified_patterns : list (string * pattern_result))
    (contact_domains : list (option string)) (known : list known_row) (d : string) :
  In (Some d) contact_domains -> d <> "" ->
  let '(patterns_by_domain, domain_mappings) :=
    domain_tables verified_patterns contact_domains known in
  exists p, assoc (default d (assoc d domain_mappings)) patterns_by_domain = Some p.
Proof.
  intros Hin Hne. unfold domain_tables.
  assert (Hok0 : tables_ok (build_domain_tables verified_patterns)).
  { apply build_domain_tables_ok. intros d1 d' H. discriminate. }
  destruct (fallback_patterns_ok contact_domains known _ Hok0) as [Hok Hd].
  specialize (Hd d Hin Hne).
  destruct (fallback_patterns contact_domains known (build_domain_tables verified_patterns))
    as [pbd dm]. simpl in Hok, Hd.
  destruct (assoc d dm) as [d' |] eqn:E; simpl.
  - specialize (Hok d d' E). simpl in Hok. unfold dict_has in Hok.
    destruct (assoc d' pbd) as [p |]; [exists p; reflexivity | discriminate].
  - unfold dict_has in Hd. rewrite E in Hd.
    destruct (assoc d pbd) as [p |]; [exists p; reflexivity|]. destruct Hd; discriminate.
Qed.

Lemma domain_tables_resolve_witness :
  (In (Some "acme.com") [Some "acme.com"; None; Some "beta.com"] /\ "acme.com" <> "") /\
  let '(patterns_by_domain, domain_mappings) :=
    domain_tables [("acme.com", mkPatternResult "acme.com" "first.last"
                                  [("us.acme.com", "f.last")] "us.acme.com" "f.last")]
      [Some "acme.com"; None; Some "beta.com"] [] in
  exists p, assoc (default "acme.com" (assoc "acme.com" domain_mappings)) patterns_by_domain
            = Some p.
Proof.
  split; [split; [left; reflexivity | discriminate]|].
  apply (domain_tables_resolve
           [("acme.com", mkPatternResult "acme.com" "first.last"
                           [("us.acme.com", "f.last")] "us.acme.com" "f.last")]
           [Some "acme.com"; None; Some "beta.com"] [] "acme.com");
    [left; reflexivity | discriminate].
Defined.

(** X6. The pattern stage of [gen], when the domain's pattern is a key of
    [PATTERN_FUNCS], never raises and always returns an address at the
    cleaned domain with the phone number: ["pattern_valid"] only for an
    address the provider confirmed (or with no provider key),
    ["unverified"] for the well-formed address of the domain's pattern,
    then ["fallback"] ([first.last]) and ["emergency_fallback"]
    ([firstlast]). *)
Theorem gen_pattern_stage_result (o : nb_oracle) (key : string)
    (patterns_by_domain : list (string * string)) (fn ln domain_clean : string)
    (phone_number : option string) (st : state) :
  PATTERN_FUNCS (default "first.last" (assoc domain_clean patterns_by_domain)) <> None ->
  exists email status st',
    gen_pattern_stage o key patterns_by_domain fn ln domain_clean phone_number st
      = (Ok (email, status, default "" phone_number), st') /\
    (exists local, email = local ++ "@" ++ domain_clean) /\
    ((status = "pattern_valid" /\ (key = "" \/ verify_cache st' !! email = Some true)) \/
     (status = "unverified" /\ email_re_match email = true /\
      exists f, PATTERN_FUNCS (default "first.last" (assoc domain_clean patterns_by_domain))
                = Some f /\ email = f fn ln ++ "@" ++ domain_clean) \/
     (status = "fallback" /\ email = fn ++ "." ++ ln ++ "@" ++ domain_clean) \/
     (status = "emergency_fallback" /\ email = fn ++ ln ++ "@" ++ domain_clean)).
Proof.
  intros Hbest. unfold gen_pattern_stage.
  destruct (PATTERN_FUNCS (default "first.last" (assoc domain_clean patterns_by_domain)))
    as [f |] eqn:Ef; [| contradiction].
  cbv zeta. set (cand := f fn ln ++ "@" ++ domain_clean).
  assert (Hfirst : exists b st1,
            (if email_re_match cand then verify_email_nvb o key cand else mret false) st
              = (Ok b, st1) /\
            (b = true -> key = "" \/ verify_cache st1 !! cand = Some true)).
  { destruct (email_re_match cand).
    - destruct (verify_nvb_spec o key cand st) as (b & st1 & Hv & Hb & _).
      exists b, st1. split; [exact Hv | exact Hb].
    - exists false, st. split; [reflexivity | discriminate]. }
  destruct Hfirst as (b & st1 & Hv & Hb).
  unfold mbind, M_bind. rewrite Hv. destruct b.
  { eexists _, _, _. split; [reflexivity|].
    split; [exists (f fn ln); reflexivity | left; split; [reflexivity | exact (Hb eq_refl)]]. }
  assert (Hps : forall p, In p (List.filter (fun p => negb (String.eqb p
                   (default "first.last" (assoc domain_clean patterns_by_domain)))) pattern_keys) ->
                PATTERN_FUNCS p <> None).
  { intros p Hp. apply filter_In in Hp as [Hp _]. apply pattern_keys_funcs, Hp. }
  destruct (try_other_patterns_spec o key fn ln domain_clean _ Hps st1)
    as (r & st2 & Hr & Hc & _).
  rewrite Hr. destruct r as [c |].
  { destruct (Hc c eq_refl) as [Hl Hk]. eexists _, _, _. split; [reflexivity|].
    split; [exact Hl | left; split; [reflexivity | exact Hk]]. }
  unfold mret, M_ret.
  destruct (email_re_match cand) eqn:Em.
  { eexists _, _, _. split; [reflexivity|]. split; [exists (f fn ln); reflexivity|].
    right; left. split; [reflexivity | split; [exact Em | exists f; split; reflexivity]]. }
  destruct (email_re_match (fn ++ "." ++ ln ++ "@" ++ domain_clean)).
  - eexists _, _, _. split; [reflexivity|].
    split; [exists (fn ++ "." ++ ln); rewrite !str_app_assoc; reflexivity|].
    right; right; left. split; reflexivity.
  - eexists _, _, _. split; [reflexivity|].
    split; [exists (fn ++ ln); rewrite !str_app_assoc; reflexivity|].
    right; right; right. split; reflexivity.
Qed.

Lemma gen_pattern_stage_result_witness :
  PATTERN_FUNCS (default "first.last" (assoc "acme.com" [("acme.com", "f.last")])) <> None /\
  exists email status st',
    gen_pattern_stage (fun _ _ => NBTimeout) "key" [("acme.com", "f.last")]
      "jane" "doe" "acme.com" (Some "555-0100") empty_state
      = (Ok (email, status, "555-0100"), st') /\
    exists local, email = local ++ "@" ++ "acme.com".
Proof.
  split; [discriminate|].
  destruct (gen_pattern_stage_result (fun _ _ => NBTimeout) "key" [("acme.com", "f.last")]
              "jane" "doe" "acme.com" (Some "555-0100") empty_state ltac:(discriminate))
    as (email & status & st' & Hrun & Hloc & _).
  exists email, status, st'. split; [exact Hrun | exact Hloc].
Defined.

(** X7. The robust site search [search_google_enhanced] returns [None]
    exactly when no page added a score; otherwise it returns one of the
    five scored patterns, with a positive accumulated score that no other
    pattern exceeds, the first such pattern in the order the patterns were
    first scored. *)
Theorem search_google_enhanced_best (re_search : RobustFiller.re_searcher) (g : page_oracle)
    (company_name domain : string) :
  let scores := RobustFiller.search_loop re_search g domain
                  (RobustFiller.search_queries company_name domain) [] in
  match RobustFiller.search_google_enhanced re_search g company_name domain with
  | Some p =>
      In p ["first.last"; "f.last"; "firstlast"; "first_last"; "firstl"] /\
      exists n, 0 < n /\
        (exists pre post, scores = app pre ((p, n) :: post) /\
                          forall z, In z pre -> snd z < n) /\
        (forall z, In z scores -> snd z <= n)
  | None => scores = []
  end.
Proof.
  cbv zeta. unfold RobustFiller.search_google_enhanced.
  pose proof (robust_search_loop_inv re_search g domain
                (RobustFiller.search_queries company_name domain) [] (fun e H => match H with end))
    as Hinv.
  destruct (RobustFiller.search_loop re_search g domain
              (RobustFiller.search_queries company_name domain) []) as [| x l] eqn:Es;
    [reflexivity|].
  pose proof (max_first_in x l) as Hin. pose proof (max_first_ge x l) as Hge.
  destruct (max_first_first x l) as (pre & post & Hpp & Hlt).
  destruct (max_first x l) as [p n]. simpl.
  destruct (Hinv (p, n) Hin) as [Hk Hn]. split; [exact Hk|].
  exists n. split; [exact Hn|]. split; [exists pre, post; split; [exact Hpp | exact Hlt] | exact Hge].
Qed.

(** X8. The enhanced site search [search_google_for_email_pattern]
    stops at the first page (status 200) on which an indicator occurs: the
    pages of the queries before it had none. It returns the pattern with
    the most indicators on that page, the first in dict order among
    equals. It returns [None] only when no page with status 200 contains
    any indicator. *)
Theorem search_google_for_email_pattern_best (g : page_oracle) (company_name domain : string) :
  match EnhancedFiller.search_google_for_email_pattern g company_name domain with
  | Some p => exists pre post q text n,
      EnhancedFiller.search_queries company_name domain = app pre (q :: post) /\
      (forall q' status text', In q' pre -> g q' = PResponse status text' -> status = 200%Z ->
         EnhancedFiller.score_content (lower text') = []) /\
      g q = PResponse 200%Z text /\
      In p ["first.last"; "f.last"; "firstlast"; "first_last"; "firstl"; "first"] /\ 0 < n /\
      (exists pre post, EnhancedFiller.score_content (lower text) = app pre ((p, n) :: post) /\
                        forall z, In z pre -> snd z < n) /\
      (forall z, In z (EnhancedFiller.score_content (lower text)) -> snd z <= n)
  | None => forall q status text,
      In q (EnhancedFiller.search_queries company_name domain) ->
      g q = PResponse status text -> status = 200%Z ->
      EnhancedFiller.score_content (lower text) = []
  end.
Proof.
  unfold EnhancedFiller.search_google_for_email_pattern.
  exact (enh_search_loop_spec g (EnhancedFiller.search_queries company_name domain)).
Qed.

(** X9. [verify_email_neverbounce] of the enhanced script never raises
    and touches neither cache; it makes at most one provider call, none
    for an empty address or key, and answers [True] only after a call for
    that address. *)
Theorem verify_email_neverbounce_effects (o : nb_oracle) (nb_api_key email : string) (st : state) :
  exists b st', EnhancedFiller.verify_email_neverbounce o nb_api_key email st = (Ok b, st') /\
    pattern_cache st' = pattern_cache st /\ verify_cache st' = verify_cache st /\
    (nb_log st' = nb_log st \/ nb_log st' = app (nb_log st) [email]) /\
    (email = "" \/ nb_api_key = "" -> b = false /\ nb_log st' = nb_log st) /\
    (b = true -> nb_log st' = app (nb_log st) [email]).
Proof.
  destruct (nvb_enh_spec o nb_api_key email st) as (b & st' & Hv & Hp & Hc & Hl & Hb).
  exists b, st'. split; [exact Hv|]. split; [exact Hp|]. split; [exact Hc|]. split; [exact Hl|].
  split.
  - intros Hempty. unfold EnhancedFiller.verify_email_neverbounce in Hv.
    destruct Hempty as [-> | ->];
      [| rewrite orb_true_r in Hv]; cbn in Hv; injection Hv as <- <-; split; reflexivity.
  - intros Ht. exact (proj2 (proj2 (Hb Ht))).
Qed.

(** X10. [generate_email_with_pattern] never raises (the one-letter last
    name case of [firstl] and [f.last] falls back to [first]); it returns
    [None] exactly when the cleaned first or last name or the domain is
    empty or the pattern is not a key of [PATTERN_FUNCS], and otherwise an
    address [local@domain]. *)
Theorem generate_email_with_pattern_result (first_name last_name domain pattern : string) :
  exists r, EnhancedFiller.generate_email_with_pattern first_name last_name domain pattern = Ok r /\
    (r = None <-> EnhancedFiller.clean_name first_name = "" \/
                  EnhancedFiller.clean_name last_name = "" \/ domain = "" \/
                  EnhancedFiller.PATTERN_FUNCS pattern = None) /\
    (forall e, r = Some e -> exists local, e = local ++ "@" ++ domain).
Proof. exact (gen_email_spec first_name last_name domain pattern). Qed.

(** X11. When every cached pattern is a key of [PATTERN_FUNCS],
    [get_verified_email_pattern] never raises, returns such a key, stores
    it under the stripped lower-cased domain, changes no other cache entry,
    and leaves the cache holding keys only. *)
Theorem get_verified_email_pattern_key (h : Hunter.hunter_oracle) (g : page_oracle)
    (hunter_api_key company_name domain : string) (st : state) :
  (forall k q, pattern_cache st !! k = Some q -> EnhancedFiller.PATTERN_FUNCS q <> None) ->
  exists p st',
    EnhancedFiller.get_verified_email_pattern h g hunter_api_key company_name domain st
      = (Ok p, st') /\
    EnhancedFiller.PATTERN_FUNCS p <> None /\
    pattern_cache st' !! strip (lower domain) = Some p /\
    (forall k, k <> strip (lower domain) -> pattern_cache st' !! k = pattern_cache st !! k) /\
    (forall k q, pattern_cache st' !! k = Some q -> EnhancedFiller.PATTERN_FUNCS q <> None).
Proof.
  intros Hok.
  destruct (enh_get_verified_spec h g hunter_api_key company_name domain st)
    as (p & st' & Hr & Hc & Ho & _ & Hk).
  exists p, st'. split; [exact Hr|]. split; [exact (Hk Hok)|].
  split; [exact Hc|]. split; [exact Ho|].
  intros k q Hkq. destruct (String.eq_dec k (strip (lower domain))) as [-> | Hne].
  - rewrite Hc in Hkq. injection Hkq as <-. exact (Hk Hok).
  - rewrite (Ho k Hne) in Hkq. exact (Hok k q Hkq).
Qed.

Lemma get_verified_email_pattern_key_witness :
  (forall k q, pattern_cache empty_state !! k = Some q -> EnhancedFiller.PATTERN_FUNCS q <> None) /\
  exists p st',
    EnhancedFiller.get_verified_email_pattern (fun _ => Hunter.HTimeout) (fun _ => PTimeout)
      "key" "Acme" " Acme.COM " empty_state = (Ok p, st') /\
    EnhancedFiller.PATTERN_FUNCS p <> None.
Proof.
  assert (H0 : forall k q, pattern_cache empty_state !! k = Some q ->
                           EnhancedFiller.PATTERN_FUNCS q <> None).
  { intros k q H. cbn [pattern_cache empty_state] in H. rewrite lookup_empty in H. discriminate. }
  split; [exact H0|].
  destruct (get_verified_email_pattern_key (fun _ => Hunter.HTimeout) (fun _ => PTimeout)
              "key" "Acme" " Acme.COM " empty_state H0) as (p & st' & Hr & Hk & _).
  exists p, st'. split; [exact Hr | exact Hk].
Defined.

(** X12. [generate_and_verify_email] never raises. A returned address is
    [local@domain]; no address means not verified. A verified result was
    checked with the provider (which needs a key) and is the address of a
    pattern now cached for the domain: under the normalised domain for the
    primary pattern, under the domain as passed for an alternative. An
    unverified result is the address of the pattern cached under the
    normalised domain. *)
Theorem generate_and_verify_email_result (h : Hunter.hunter_oracle) (g : page_oracle)
    (o : nb_oracle) (hunter_api_key nb_api_key first_name last_name company_name domain : string)
    (st : state) :
  exists r st',
    EnhancedFiller.generate_and_verify_email h g o hunter_api_key nb_api_key
      first_name last_name company_name domain st = (Ok r, st') /\
    (forall e, fst r = Some e -> exists local, e = local ++ "@" ++ domain) /\
    (fst r = None -> snd r = false) /\
    (snd r = true -> exists e, fst r = Some e /\ nb_api_key <> "" /\ In e (nb_log st') /\
       exists p, (pattern_cache st' !! strip (lower domain) = Some p \/
                  pattern_cache st' !! domain = Some p) /\
                 EnhancedFiller.generate_email_with_pattern first_name last_name domain p
                   = Ok (Some e)) /\
    (snd r = false -> exists p, pattern_cache st' !! strip (lower domain) = Some p /\
       EnhancedFiller.generate_email_with_pattern first_name last_name domain p = Ok (fst r)).
Proof.
  unfold EnhancedFiller.generate_and_verify_email, EnhancedFiller.lift_exc,
    mbind, M_bind, mret, M_ret.
  destruct (enh_get_verified_spec h g hunter_api_key company_name domain st)
    as (p & st1 & Hp & Hc1 & _ & _ & _).
  rewrite Hp.
  destruct (gen_email_spec first_name last_name domain p) as (r & Hr & _ & Hloc).
  rewrite Hr. unfold EnhancedFiller.truthy.
  destruct r as [e |]; [destruct (String.eqb e "") eqn:Ee |]; cbn [negb default id].
  - exfalso. apply String.eqb_eq in Ee. destruct (Hloc e eq_refl) as [local ->].
    exact (local_at_nonempty local domain Ee).
  - destruct (nvb_enh_spec o nb_api_key e st1) as (b & st2 & Hv & Hpc2 & _ & _ & Hb).
    rewrite Hv. destruct b.
    + destruct (Hb eq_refl) as (_ & Hk & Hl).
      eexists _, _. split; [reflexivity|]. cbn [fst snd].
      split; [intros e' He'; injection He' as <-; exact (Hloc e eq_refl)|].
      split; [discriminate|]. split; [| discriminate].
      intros _. exists e. split; [reflexivity|]. split; [exact Hk|].
      split; [rewrite Hl; apply in_or_app; right; left; reflexivity|].
      exists p. split; [left; rewrite Hpc2; exact Hc1 | exact Hr].
    + destruct (try_alternatives_spec o nb_api_key first_name last_name domain p
                  EnhancedFiller.alternative_patterns st2)
        as (ra & st3 & Ha & Hpc3 & _ & Hs).
      rewrite Ha. destruct ra as [[ap ae] |].
      * destruct (Hs ap ae eq_refl) as (Hgen & Hk & Hin).
        destruct (gen_email_spec first_name last_name domain ap) as (r' & Hr' & _ & Hloc').
        rewrite Hgen in Hr'. injection Hr' as <-.
        unfold pattern_cache_put, modify.
        eexists _, _. split; [reflexivity|]. cbn [fst snd pattern_cache nb_log set_pattern_cache].
        split; [intros e' He'; injection He' as <-; exact (Hloc' ae eq_refl)|].
        split; [discriminate|]. split; [| discriminate].
        intros _. exists ae. split; [reflexivity|]. split; [exact Hk|]. split; [exact Hin|].
        exists ap. split; [right; apply lookup_insert_eq | exact Hgen].
      * eexists _, _. split; [reflexivity|]. cbn [fst snd].
        split; [intros e' He'; injection He' as <-; exact (Hloc e eq_refl)|].
        split; [discriminate|]. split; [discriminate|].
        intros _. exists p. split; [rewrite Hpc3, Hpc2; exact Hc1 | exact Hr].
  - eexists _, _. split; [reflexivity|]. cbn [fst snd].
    split; [discriminate|]. split; [reflexivity|]. split; [discriminate|].
    intros _. exists p. split; [exact Hc1 | exact Hr].
Qed.

(** X13. The robust [generate_email_with_pattern] returns [None] exactly
    when the cleaned first name or the domain is empty or the pattern is
    not a key of [PATTERN_FUNCS]: its [except] branch is never taken, and
    a missing or one-letter last name does not prevent an address.
    Otherwise it returns [local@domain]; with no last name, [first.last]
    gives [first.user@domain]. *)
Theorem robust_generate_email_with_pattern_result (first_name last_name domain pattern : string) :
  (RobustFiller.generate_email_with_pattern first_name last_name domain pattern = None <->
     RobustFiller.clean_name first_name = "" \/ domain = "" \/
     RobustFiller.PATTERN_FUNCS pattern = None) /\
  (forall e, RobustFiller.generate_email_with_pattern first_name last_name domain pattern = Some e ->
     exists local, e = local ++ "@" ++ domain) /\
  (RobustFiller.clean_name first_name <> "" -> domain <> "" ->
   RobustFiller.clean_name last_name = "" ->
   RobustFiller.generate_email_with_pattern first_name last_name domain "first.last"
     = Some (lower (RobustFiller.clean_name first_name) ++ ".user@" ++ domain)).
Proof.
  split; [| split].
  - unfold RobustFiller.generate_email_with_pattern. cbv zeta.
    destruct (String.eqb (RobustFiller.clean_name first_name) "") eqn:E1.
    { split; [intros _; left; apply String.eqb_eq, E1 | reflexivity]. }
    destruct (String.eqb domain "") eqn:E3.
    { split; [intros _; right; left; apply String.eqb_eq, E3 | reflexivity]. }
    cbn [orb].
    assert (Hf : RobustFiller.clean_name first_name <> "") by (apply String.eqb_neq, E1).
    assert (Hd : domain <> "") by (apply String.eqb_neq, E3).
    destruct (String.eqb (RobustFiller.clean_name last_name) "" ||
              Nat.leb (String.length (RobustFiller.clean_name last_name)) 1) eqn:Es.
    + destruct (existsb (String.eqb pattern) ["firstl"; "f.last"; "last.first"; "l.first"]) eqn:Ea.
      * cbv beta iota. split; [discriminate|]. intros [H | [H | H]]; [contradiction | contradiction|].
        apply existsb_exists in Ea as [x [Hx Hpx]]. apply String.eqb_eq in Hpx as <-.
        destruct Hx as [<- | [<- | [<- | [<- | []]]]]; discriminate H.
      * destruct (String.eqb pattern "first.last") eqn:Ep.
        -- apply String.eqb_eq in Ep as ->. cbv beta iota.
           split; [discriminate|]. intros [H | [H | H]]; [contradiction | contradiction | discriminate H].
        -- cbv beta iota.
           destruct (RobustFiller.PATTERN_FUNCS pattern) as [f |] eqn:Epf.
           ++ destruct (pattern_funcs_total_first pattern _ (RobustFiller.clean_name last_name) f Epf Hf Ea)
                as [lp Hlp].
              rewrite Hlp. split; [discriminate|].
              intros [H | [H | H]]; [contradiction | contradiction | congruence].
           ++ split; [intros _; right; right; reflexivity | reflexivity].
    + cbv beta iota.
      apply orb_false_iff in Es as [Es _].
      destruct (RobustFiller.PATTERN_FUNCS pattern) as [f |] eqn:Epf.
      * destruct (pattern_funcs_total pattern _ _ f Epf Hf (proj1 (String.eqb_neq _ _) Es))
          as [lp Hlp].
        rewrite Hlp. split; [discriminate|].
        intros [H | [H | H]]; [contradiction | contradiction | congruence].
      * split; [intros _; right; right; reflexivity | reflexivity].
  - intros e. unfold RobustFiller.generate_email_with_pattern. cbv zeta.
    destruct (String.eqb (RobustFiller.clean_name first_name) "" || String.eqb domain "");
      [discriminate|].
    match goal with |- context [let '(_, _) := ?x in _] => destruct x as [q l] end.
    destruct (RobustFiller.PATTERN_FUNCS q) as [f |]; [| discriminate].
    destruct (f (RobustFiller.clean_name first_name) l) as [lp |]; [| discriminate].
    intros H; injection H as <-. exists lp. reflexivity.
  - intros Hf Hd Hl. unfold RobustFiller.generate_email_with_pattern. cbv zeta.
    rewrite (proj2 (String.eqb_neq _ _) Hf), (proj2 (String.eqb_neq _ _) Hd), Hl.
    cbn. rewrite !str_app_assoc. reflexivity.
Qed.

End Extras.

